(** * Fetcher: a shallow embedding of [src/fetcher.ts]

    The dispatcher [Fetcher.request] and its four wrappers are embedded as
    computations in a small state / error / trace monad.  The process-wide
    [Fetcher.defaults] object and the global [fetch] binding live in the
    world state; every observable action of the dispatcher (the call of a
    callback, [setTimeout], the transport call, reading the response body)
    is recorded in the trace of the run.

    Modelling conventions.
    - JavaScript strings are [string]s, read as the UTF-8 bytes of a
      well-formed string (a lone surrogate has no counterpart here).
    - JavaScript numbers are integers [Z]; [NaN] and fractions are outside
      the model.  [0] is the only falsy number.
    - A plain object is an association list kept in own-property order
      (array-index keys ascending, then the other keys in creation order).
    - [HeadersInit] values are plain objects.
    - The callbacks [transformRequest], [transformResponse] and
      [validateStatus] are total functions: they have no effect of their
      own and cannot modify the header object they are shown.
    - A response object has an identity, its handle, and a body that can
      be read once: reading it marks the handle as used in the world, and
      a transport that answers again with a used handle hands over a
      response whose [json()] and [text()] reject.  A mock whose readers
      can be called again and again is a transport that answers with a new
      handle every time. *)

From Stdlib Require Import List String Ascii ZArith NArith Bool Lia.
From Stdlib Require Import DecimalString DecimalZ DecimalPos.
Import ListNotations.
Open Scope string_scope.
Open Scope list_scope.
Open Scope Z_scope.

Set Implicit Arguments.

(* ================================================================== *)
(** ** JavaScript values and truthiness *)

Module JS.

#[warnings="-register-all"]
Inductive JSValue : Type :=
| JUndefined
| JNull
| JBool (b : bool)
| JNum (n : Z)
| JStr (s : string)
| JArr (l : list JSValue)
| JObj (o : list (string * JSValue)).

(** [ToBoolean]: what [if (v)], [v && _] and [v || _] test. *)
Definition truthy (v : JSValue) : bool :=
  match v with
  | JUndefined | JNull => false
  | JBool b => b
  | JNum n => negb (n =? 0)
  | JStr s => negb (s =? "")%string
  | JArr _ | JObj _ => true
  end.

Definition truthyStr (s : string) : bool := negb (s =? "")%string.
Definition truthyNum (n : Z) : bool := negb (n =? 0).
(** Functions and objects are always truthy. *)
Definition truthyRef {A : Type} (_ : A) : bool := true.

(** A possibly [undefined] value of a given type, with its truthiness. *)
Definition truthyOpt {A : Type} (t : A -> bool) (a : option A) : bool :=
  match a with
  | Some v => t v
  | None => false
  end.

(** [a || b]: [a] when it is truthy, else [b] whatever it is. *)
Definition or_else {A : Type} (t : A -> bool) (a b : option A) : option A :=
  if truthyOpt t a then a else b.

(** [a || d] where [d] is a literal of the type. *)
Definition or_default {A : Type} (t : A -> bool) (a : option A) (d : A) : A :=
  match a with
  | Some v => if t v then v else d
  | None => d
  end.

End JS.
Export JS.

(* ================================================================== *)
(** ** Plain objects in own-property order *)

Module Obj.

Definition JSObject (V : Type) : Type := list (string * V).

Definition keys {V} (o : JSObject V) : list string := map fst o.

Definition digit_of (c : ascii) : option N :=
  let n := N_of_ascii c in
  if ((48 <=? n) && (n <=? 57))%N then Some (n - 48)%N else None.

Fixpoint parse_digits (s : string) (acc : N) : option N :=
  match s with
  | EmptyString => Some acc
  | String c r =>
      match digit_of c with
      | Some d => parse_digits r (10 * acc + d)%N
      | None => None
      end
  end.

(** A key is an array index when it is the canonical decimal form of an
    integer below [2^32 - 1]. *)
Definition array_index (k : string) : option N :=
  match k with
  | EmptyString => None
  | String "0" EmptyString => Some 0%N
  | String "0" _ => None
  | _ =>
      match parse_digits k 0 with
      | Some n => if (n <? 4294967295)%N then Some n else None
      | None => None
      end
  end.

Fixpoint obj_get {V} (k : string) (o : JSObject V) : option V :=
  match o with
  | [] => None
  | (k', v) :: r => if (k' =? k)%string then Some v else obj_get k r
  end.

Definition obj_has {V} (k : string) (o : JSObject V) : bool :=
  match obj_get k o with Some _ => true | None => false end.

Fixpoint obj_update {V} (k : string) (v : V) (o : JSObject V) : JSObject V :=
  match o with
  | [] => []
  | (k', v') :: r =>
      if (k' =? k)%string then (k', v) :: r else (k', v') :: obj_update k v r
  end.

Fixpoint obj_insert_index {V} (n : N) (k : string) (v : V) (o : JSObject V)
  : JSObject V :=
  match o with
  | [] => [(k, v)]
  | (k', v') :: r =>
      match array_index k' with
      | Some m =>
          if (m <? n)%N then (k', v') :: obj_insert_index n k v r
          else (k, v) :: o
      | None => (k, v) :: o
      end
  end.

(** Defining or overwriting one own property: an existing key keeps its
    place, a new array index goes among the indices, any other new key
    goes last. *)
Definition obj_set {V} (k : string) (v : V) (o : JSObject V) : JSObject V :=
  if obj_has k o then obj_update k v o
  else match array_index k with
       | Some n => obj_insert_index n k v o
       | None => (o ++ [(k, v)])%list
       end.

(** [{ ...target, ...src }]: the own properties of [src] are copied in
    order onto [target]. *)
Definition obj_assign {V} (target src : JSObject V) : JSObject V :=
  fold_left (fun acc kv => obj_set (fst kv) (snd kv) acc) src target.

(** Spreading a possibly [undefined] object copies nothing when it is
    [undefined]. *)
Definition spread {V} (target : JSObject V) (src : option (JSObject V))
  : JSObject V :=
  match src with
  | Some o => obj_assign target o
  | None => target
  end.

(** [Object.fromEntries]. *)
Definition fromEntries {V} (es : list (string * V)) : JSObject V :=
  obj_assign [] es.

(** Representation invariant of an object: no key twice. *)
Definition wf_obj {V} (o : JSObject V) : Prop := NoDup (keys o).

End Obj.
Export Obj.

(* ================================================================== *)
(** ** Strings: prefixes, substrings, joining, decimal numerals *)

Module Str.

Fixpoint includes (pat s : string) : bool :=
  String.prefix pat s ||
  match s with
  | EmptyString => false
  | String _ r => includes pat r
  end.

(** [/^(https?|ftp):\/\//.test(url)] *)
Definition isAbsolute (url : string) : bool :=
  String.prefix "http://" url || String.prefix "https://" url
  || String.prefix "ftp://" url.

Definition string_of_Z (z : Z) : string :=
  NilZero.string_of_int (Z.to_int z).

(** Remove the last character: [s.slice(0, -1)]. *)
Fixpoint dropLast (s : string) : string :=
  match s with
  | EmptyString => EmptyString
  | String _ EmptyString => EmptyString
  | String c r => String c (dropLast r)
  end.

Fixpoint join (sep : string) (l : list string) : string :=
  match l with
  | [] => ""
  | [x] => x
  | x :: r => (x ++ sep ++ join sep r)%string
  end.

End Str.
Export Str.

(* ================================================================== *)
(** ** Percent-encoding *)

Module Pct.

Definition hexDigit (n : N) : ascii :=
  if (n <? 10)%N then ascii_of_N (48 + n) else ascii_of_N (55 + n).

(** [%XY] with upper-case hexadecimal digits. *)
Definition pctByte (c : ascii) : string :=
  let n := N_of_ascii c in
  String "%" (String (hexDigit (n / 16)) (String (hexDigit (n mod 16)) "")).

Definition isAlnum (c : ascii) : bool :=
  let n := N_of_ascii c in
  ((48 <=? n) && (n <=? 57) || (65 <=? n) && (n <=? 90)
   || (97 <=? n) && (n <=? 122))%N.

Definition oneOf (set : string) (c : ascii) : bool :=
  existsb (Ascii.eqb c) (list_ascii_of_string set).

(** The characters [encodeURIComponent] leaves alone. *)
Definition uriUnreserved (c : ascii) : bool :=
  isAlnum c || oneOf "-_.!~*'()" c.

(** Percent-encoding of the bytes outside [safe]; with [plus], a space is
    written [+]. *)
Fixpoint encodeWith (safe : ascii -> bool) (plus : bool) (s : string) : string :=
  match s with
  | EmptyString => EmptyString
  | String c r =>
      if safe c then String c (encodeWith safe plus r)
      else if plus && Ascii.eqb c " " then String "+" (encodeWith safe plus r)
      else (pctByte c ++ encodeWith safe plus r)%string
  end.

Definition encodeURIComponent (s : string) : string :=
  encodeWith uriUnreserved false s.

(** The [application/x-www-form-urlencoded] byte serializer used by
    [URLSearchParams]: a space becomes [+]. *)
Definition formSafe (c : ascii) : bool :=
  isAlnum c || oneOf "*-._" c.

Definition formEncode (s : string) : string :=
  encodeWith formSafe true s.

Definition formSerialize (l : list (string * string)) : string :=
  join "&" (map (fun kv => (formEncode (fst kv) ++ "=" ++ formEncode (snd kv))%string) l).

(** Decoding, to say what an encoded text stands for. *)
Definition hexValue (c : ascii) : option N :=
  let n := N_of_ascii c in
  if ((48 <=? n) && (n <=? 57))%N then Some (n - 48)%N
  else if ((65 <=? n) && (n <=? 70))%N then Some (n - 55)%N
  else if ((97 <=? n) && (n <=? 102))%N then Some (n - 87)%N
  else None.

Definition unplus (plus : bool) (c : ascii) : ascii :=
  if plus && Ascii.eqb c "+" then " "%char else c.

Fixpoint decodeWith (plus : bool) (s : string) : string :=
  match s with
  | EmptyString => EmptyString
  | String c r =>
      match r with
      | String h (String l r') =>
          if Ascii.eqb c "%" then
            match hexValue h, hexValue l with
            | Some a, Some b =>
                String (ascii_of_N (16 * a + b)) (decodeWith plus r')
            | _, _ => String c (decodeWith plus r)
            end
          else String (unplus plus c) (decodeWith plus r)
      | _ => String (unplus plus c) (decodeWith plus r)
      end
  end.

(** [decodeURIComponent] on well-formed input. *)
Definition pctDecode (s : string) : string := decodeWith false s.

(** The form decoder: [+] is a space. *)
Definition formDecode (s : string) : string := decodeWith true s.

(** An encoded text: safe characters and [%XY] triples (and [+] when
    spaces are written so). *)
Fixpoint encodedOver (safe : ascii -> bool) (plus : bool) (s : string) : bool :=
  match s with
  | EmptyString => true
  | String c r =>
      if Ascii.eqb c "%" then
        match r with
        | String h (String l r') =>
            match hexValue h, hexValue l with
            | Some _, Some _ => encodedOver safe plus r'
            | _, _ => false
            end
        | _ => false
        end
      else (safe c || plus && Ascii.eqb c "+") && encodedOver safe plus r
  end.

End Pct.
Export Pct.

(* ================================================================== *)
(** ** The platform: errors, URL objects, serializers, responses *)

(** A thrown value: the constructor name and the message. *)
Record JSError : Type := mkError { errName : string; errMessage : string }.

(** [new Error(message)] *)
Definition Error (message : string) : JSError := mkError "Error" message.

Definition Result (A : Type) : Type := (JSError + A)%type.

(** A URL object, after the URL Standard: the serialization up to the
    path, the query (absent or its text), the list behind [searchParams],
    the fragment. *)
Record URL : Type := mkURL {
  url_head : string;
  url_query : option string;
  url_list : list (string * string);
  url_fragment : option string
}.

(** [u.searchParams.append(k, v)]: the pair goes last in the list and the
    query becomes the serialization of the list. *)
Definition searchParams_append (k v : string) (u : URL) : URL :=
  let l := url_list u ++ [(k, v)] in
  let q := formSerialize l in
  {| url_head := url_head u;
     url_query := if (q =? "")%string then None else Some q;
     url_list := l;
     url_fragment := url_fragment u |}.

(** [u.toString()] *)
Definition url_toString (u : URL) : string :=
  (url_head u
   ++ match url_query u with Some q => "?" ++ q | None => "" end
   ++ match url_fragment u with Some f => "#" ++ f | None => "" end)%string.

(** What the dispatcher takes from its environment without defining it:
    the URL parser ([new URL(url)] and [new URL(url, base)], which throw on
    failure), [JSON.stringify] and [new URLSearchParams(data).toString()]
    (whose constructor throws on an ill-shaped argument). *)
Class Platform : Type := {
  URL_new : string -> option string -> Result URL;
  JSON_stringify : JSValue -> string;
  URLSearchParams_toString : JSValue -> Result string
}.

(** A response handle.  [resp_headers] is what [headers.entries()] yields
    (lower-case names); [resp_json] and [resp_text] are the outcomes of
    reading the body as JSON and as text. *)
Record Response : Type := mkResponse {
  resp_status : Z;
  resp_statusText : string;
  resp_headers : list (string * string);
  resp_json : Result JSValue;
  resp_text : Result string
}.

(** [headers.get(name)] for a lower-case [name]. *)
Definition headers_get (name : string) (r : Response) : option string :=
  obj_get name (resp_headers r).

(* ================================================================== *)
(** ** The types of [fetcher.ts] *)

Inductive FetchMethod : Type := GET | POST | PUT | DELETE.

Record FetcherConfig : Type := mkConfig {
  baseUrl : option string;
  contentType : option string;
  headers : option (JSObject string);
  params : option (JSObject string);
  timeout : option Z;
  transformRequest : option (JSValue -> JSObject string -> JSValue);
  transformResponse : option (JSValue -> JSValue);
  validateStatus : option (Z -> bool);
  token : option string
}.

(** [{}] *)
Definition emptyConfig : FetcherConfig :=
  mkConfig None None None None None None None None None.

Record FetcherResponse : Type := mkFetcherResponse {
  data : JSValue;
  status : Z;
  statusText : string;
  responseHeaders : JSObject string;
  config : FetcherConfig;
  rawResponse : Response
}.

(** The signal of a fresh [AbortController], with the delay of the abort
    timer pending on it, if any. *)
Record AbortSignal : Type := mkSignal { abortAfter : option Z }.

(** [RequestInit] as the dispatcher fills it. *)
Record RequestInit : Type := mkInit {
  method : FetchMethod;
  initHeaders : JSObject string;
  body : option string;
  signal : AbortSignal
}.

(** What a run does, in order. *)
Inductive Event : Type :=
| EvTransformRequest (d : JSValue) (h : JSObject string)
| EvSetTimeout (ms : Z)
| EvFetch (url : string) (init : RequestInit) (answer : Result Response)
| EvValidateStatus (s : Z)
| EvJson
| EvText
| EvTransformResponse (d : JSValue).

(* ================================================================== *)
(** ** The dispatcher *)

Section Dispatcher.

Context {P : Platform}.

(** The state of the transport (a mock's queue of answers, a server). *)
Variable TS : Type.

(** The identity of a response object. *)
Definition Handle : Type := nat.

(** A [fetch]-compatible function: it answers with a response object (its
    handle and what it holds) or rejects. *)
Definition Transport : Type :=
  string -> RequestInit -> TS -> Result (Handle * Response) * TS.

(** The mutable globals the dispatcher reads: [Fetcher.defaults], the
    [fetch] binding (possibly undefined) and the transport's state; and
    the response objects whose body has been read. *)
Record World : Type := mkWorld {
  defaults : FetcherConfig;
  fetch : option Transport;
  tstate : TS;
  bodyUsed : list Handle
}.

Record Outcome (A : Type) : Type := mkOutcome {
  result : Result A;
  world : World;
  trace : list Event
}.

Definition M (A : Type) : Type := World -> Outcome A.

Definition ret {A} (a : A) : M A := fun w => mkOutcome (inr a) w [].

Definition throw {A} (e : JSError) : M A := fun w => mkOutcome (inl e) w [].

Definition bind {A B} (m : M A) (k : A -> M B) : M B :=
  fun w =>
    let o := m w in
    match result o with
    | inl e => mkOutcome (inl e) (world o) (trace o)
    | inr a =>
        let o' := k a (world o) in
        mkOutcome (result o') (world o') (trace o ++ trace o')
    end.

Notation "x <- m ;; k" := (bind m (fun x => k))
  (at level 61, m at next level, right associativity).
Notation "m ;;; k" := (bind m (fun _ => k))
  (at level 61, right associativity).

Definition liftR {A} (r : Result A) : M A :=
  fun w => mkOutcome r w [].

Definition emit (e : Event) : M unit :=
  fun w => mkOutcome (inr tt) w [e].

Definition getDefaults : M FetcherConfig :=
  fun w => mkOutcome (inr (defaults w)) w [].

(** The error of lines 37-39. *)
Definition fetchMissing : JSError :=
  Error "fetch is not defined. If you are running this on the backend, make sure to install a fetch-compatible library.".

(** lines 36-40 *)
Definition requireFetch : M Transport :=
  fun w =>
    match fetch w with
    | Some f => mkOutcome (inr f) w []
    | None =>
        mkOutcome (inl fetchMissing) w []
    end.

(** What [json()] and [text()] reject with once the body was read (a
    [TypeError]; the wording of the message is the platform's). *)
Definition bodyConsumed : JSError :=
  mkError "TypeError" "body stream already read".

(** A response object whose body was read: the same status and headers,
    and both readers reject. *)
Definition spent (r : Response) : Response :=
  {| resp_status := resp_status r;
     resp_statusText := resp_statusText r;
     resp_headers := resp_headers r;
     resp_json := inl bodyConsumed;
     resp_text := inl bodyConsumed |}.

Definition isUsed (h : Handle) (w : World) : bool :=
  existsb (Nat.eqb h) (bodyUsed w).

(** The response object as the dispatcher finds it when the transport
    answers with it. *)
Definition viewOf (w : World) (a : Handle * Response) : Response :=
  if isUsed (fst a) w then spent (snd a) else snd a.

Definition answerView (w : World) (ans : Result (Handle * Response))
  : Result Response :=
  match ans with
  | inl e => inl e
  | inr a => inr (viewOf w a)
  end.

(** The world after the body of [h] was read. *)
Definition markUsed (h : Handle) (w : World) : World :=
  mkWorld (defaults w) (fetch w) (tstate w) (h :: bodyUsed w).

(** Calling [json()] or [text()] uses up the body. *)
Definition useBody (h : Handle) : M unit :=
  fun w => mkOutcome (inr tt) (markUsed h w) [].

(** line 115: the transport is called; it may change its own state.  The
    call and its settlement are one event. *)
Definition callFetch (f : Transport) (url : string) (init : RequestInit)
  : M (Handle * Response) :=
  fun w =>
    let '(ans, ts) := f url init (tstate w) in
    mkOutcome
      match ans with
      | inl e => inl e
      | inr a => inr (fst a, viewOf w a)
      end
      (mkWorld (defaults w) (fetch w) ts (bodyUsed w))
      [EvFetch url init (answerView w ans)].

(** [fetchUrl : URL | string] *)
Inductive FetchUrl : Type :=
| UrlObj (u : URL)
| UrlStr (s : string).

(** [fetchUrl.toString()] *)
Definition fetchUrl_toString (u : FetchUrl) : string :=
  match u with
  | UrlObj u => url_toString u
  | UrlStr s => s
  end.

(** line 42 *)
Definition effBaseUrl (cfg dfl : FetcherConfig) : string :=
  or_default truthyStr (or_else truthyStr (baseUrl cfg) (baseUrl dfl)) "".

(** lines 45-55 *)
Definition resolveUrl (cfg dfl : FetcherConfig) (url : string)
  : Result FetchUrl :=
  if isAbsolute url then
    match URL_new url None with
    | inr u => inr (UrlObj u)
    | inl e => inl e
    end
  else if truthyStr (effBaseUrl cfg dfl) then
    match URL_new url (Some (effBaseUrl cfg dfl)) with
    | inr u => inr (UrlObj u)
    | inl _ => inl (Error ("Invalid URL: " ++ url))
    end
  else inr (UrlStr url).

(** line 58: [{ ...Fetcher.defaults.params, ...config.params }] *)
Definition urlParams (cfg dfl : FetcherConfig) : JSObject string :=
  spread (spread [] (params dfl)) (params cfg).

(** lines 60-64: the loop over [Object.keys(urlParams)] *)
Definition queryString (ps : JSObject string) : string :=
  fold_left
    (fun acc kv =>
       (acc ++ fst kv ++ "=" ++ encodeURIComponent (snd kv) ++ "&")%string)
    ps "".

(** lines 57-71 *)
Definition appendParams (cfg dfl : FetcherConfig) (fetchUrl : FetchUrl)
  : FetchUrl :=
  if truthyOpt truthyRef (or_else truthyRef (params cfg) (params dfl)) then
    match fetchUrl with
    | UrlStr s =>
        UrlStr (s ++ "?" ++ dropLast (queryString (urlParams cfg dfl)))%string
    | UrlObj u =>
        UrlObj (fold_left
                  (fun u kv => searchParams_append (fst kv) (snd kv) u)
                  (urlParams cfg dfl) u)
    end
  else fetchUrl.

(** lines 73-74 *)
Definition effContentType (cfg dfl : FetcherConfig) : string :=
  or_default truthyStr
    (or_else truthyStr (contentType cfg) (contentType dfl))
    "application/json".

(** lines 76-85 *)
Definition requestHeaders (cfg dfl : FetcherConfig) : JSObject string :=
  let headers :=
    obj_set "Content-Type" (effContentType cfg dfl)
      (spread (spread [] (headers dfl)) (headers cfg)) in
  match token cfg with
  | Some t =>
      if truthyStr t then
        obj_set "Authorization" ("Bearer " ++ t)%string (obj_assign [] headers)
      else headers
  | None => headers
  end.

(** lines 87-94 *)
Definition applyTransformRequest (cfg dfl : FetcherConfig) (data : JSValue)
  (headers : JSObject string) : M JSValue :=
  if truthy data
     && truthyOpt truthyRef
          (or_else truthyRef (transformRequest cfg) (transformRequest dfl))
  then
    match or_else truthyRef (transformRequest cfg) (transformRequest dfl) with
    | Some f => emit (EvTransformRequest data headers) ;;; ret (f data headers)
    | None => ret JUndefined
    end
  else ret data.

(** lines 101-106 *)
Definition requestBody (ct : string) (data : JSValue) : Result (option string) :=
  if truthy data then
    if (ct =? "application/x-www-form-urlencoded")%string then
      match URLSearchParams_toString data with
      | inr s => inr (Some s)
      | inl e => inl e
      end
    else inr (Some (JSON_stringify data))
  else inr None.

(** lines 110-111 *)
Definition effTimeout (cfg dfl : FetcherConfig) : option Z :=
  or_else truthyNum (timeout cfg) (timeout dfl).

(** lines 108-113 *)
Definition armTimeout (cfg dfl : FetcherConfig) : M AbortSignal :=
  if truthyOpt truthyNum (effTimeout cfg dfl) then
    match effTimeout cfg dfl with
    | Some t => emit (EvSetTimeout t) ;;; ret (mkSignal (Some t))
    | None => ret (mkSignal None)
    end
  else ret (mkSignal None).

(** lines 117-120 *)
Definition effValidateStatus (cfg dfl : FetcherConfig) : Z -> bool :=
  or_default truthyRef
    (or_else truthyRef (validateStatus cfg) (validateStatus dfl))
    (fun status => (200 <=? status) && (status <? 300)).

(** lines 122-124 *)
Definition checkStatus (cfg dfl : FetcherConfig) (response : Response)
  : M unit :=
  emit (EvValidateStatus (resp_status response)) ;;;
  if negb (effValidateStatus cfg dfl (resp_status response)) then
    throw (Error ("Request failed with status code "
                  ++ string_of_Z (resp_status response)))
  else ret tt.

(** lines 126-130: [h] is the handle of [response]. *)
Definition readBody (h : Handle) (response : Response) : M JSValue :=
  if truthyOpt (fun b : bool => b)
       (option_map (includes "application/json")
          (headers_get "content-type" response))
  then emit EvJson ;;; useBody h ;;; liftR (resp_json response)
  else
    emit EvText ;;;
    useBody h ;;;
    s <- liftR (resp_text response) ;;
    ret (JStr s).

(** lines 132-136 *)
Definition applyTransformResponse (cfg dfl : FetcherConfig)
  (responseData : JSValue) : M JSValue :=
  if truthyOpt truthyRef
       (or_else truthyRef (transformResponse cfg) (transformResponse dfl))
  then
    match or_else truthyRef (transformResponse cfg) (transformResponse dfl) with
    | Some f => emit (EvTransformResponse responseData) ;;; ret (f responseData)
    | None => ret JUndefined
    end
  else ret responseData.

(** Lines 117-145: what happens once the transport has answered. *)
Definition settle (config dfl : FetcherConfig) (h : Handle)
  (response : Response) : M FetcherResponse :=
  checkStatus config dfl response ;;;
  responseData <- readBody h response ;;
  responseData <- applyTransformResponse config dfl responseData ;;
  ret {| data := responseData;
         status := resp_status response;
         statusText := resp_statusText response;
         responseHeaders := fromEntries (resp_headers response);
         config := config;
         rawResponse := response |}.

(** The per-call config: [{}] when the argument is omitted (line 34). *)
Definition givenConfig (config : option FetcherConfig) : FetcherConfig :=
  match config with Some c => c | None => emptyConfig end.

(** [Fetcher.request], lines 30-146. *)
Definition request (method : FetchMethod) (url : string) (data : JSValue)
  (config : option FetcherConfig) : M FetcherResponse :=
  let config := givenConfig config in
  fetch <- requireFetch ;;
  dfl <- getDefaults ;;
  fetchUrl <- liftR (resolveUrl config dfl url) ;;
  let fetchUrl := appendParams config dfl fetchUrl in
  let contentType := effContentType config dfl in
  let headers := requestHeaders config dfl in
  data <- applyTransformRequest config dfl data headers ;;
  body <- liftR (requestBody contentType data) ;;
  signal <- armTimeout config dfl ;;
  answer <-
    callFetch fetch (fetchUrl_toString fetchUrl)
      (mkInit method headers body signal) ;;
  dfl <- getDefaults ;;
  settle config dfl (fst answer) (snd answer).

(** lines 148-176 *)
Definition get (url : string) (config : option FetcherConfig)
  : M FetcherResponse :=
  request GET url JUndefined config.

Definition post (url : string) (data : JSValue)
  (config : option FetcherConfig) : M FetcherResponse :=
  request POST url data config.

Definition put (url : string) (data : JSValue)
  (config : option FetcherConfig) : M FetcherResponse :=
  request PUT url data config.

Definition delete (url : string) (config : option FetcherConfig)
  : M FetcherResponse :=
  request DELETE url JUndefined config.

(** *** Notions used to state what a run does *)

(** The payload after lines 87-94. *)
Definition outgoingPayload (cfg dfl : FetcherConfig) (data : JSValue)
  (headers : JSObject string) : JSValue :=
  if truthy data then
    match or_else truthyRef (transformRequest cfg) (transformRequest dfl) with
    | Some f => f data headers
    | None => data
    end
  else data.

Definition transformRequestEvents (cfg dfl : FetcherConfig) (data : JSValue)
  (headers : JSObject string) : list Event :=
  if truthy data then
    match or_else truthyRef (transformRequest cfg) (transformRequest dfl) with
    | Some _ => [EvTransformRequest data headers]
    | None => []
    end
  else [].

(** The delay of the abort timer armed by lines 110-113, if one is. *)
Definition armedTimeout (cfg dfl : FetcherConfig) : option Z :=
  match effTimeout cfg dfl with
  | Some t => if truthyNum t then Some t else None
  | None => None
  end.

Definition timerEvents (cfg dfl : FetcherConfig) : list Event :=
  match armedTimeout cfg dfl with
  | Some t => [EvSetTimeout t]
  | None => []
  end.

(** Whether lines 126-130 read the body as JSON. *)
Definition declaresJson (response : Response) : bool :=
  match headers_get "content-type" response with
  | Some ct => includes "application/json" ct
  | None => false
  end.

(** The outcome of reading the body, lines 126-130. *)
Definition decodedBody (response : Response) : Result JSValue :=
  if declaresJson response then resp_json response
  else match resp_text response with
       | inr s => inr (JStr s)
       | inl e => inl e
       end.

(** The data after lines 132-136. *)
Definition transformedData (cfg dfl : FetcherConfig) (v : JSValue) : JSValue :=
  match or_else truthyRef (transformResponse cfg) (transformResponse dfl) with
  | Some f => f v
  | None => v
  end.

(** The event of reading the body, lines 126-130. *)
Definition readEvent (r : Response) : Event :=
  if declaresJson r then EvJson else EvText.

Definition transformResponseEvents (cfg dfl : FetcherConfig) (v : JSValue)
  : list Event :=
  match or_else truthyRef (transformResponse cfg) (transformResponse dfl) with
  | Some _ => [EvTransformResponse v]
  | None => []
  end.

(** The transport calls of a trace, in order. *)
Definition fetchCalls (tr : list Event) : list (string * RequestInit) :=
  flat_map (fun e => match e with
                     | EvFetch u i _ => [(u, i)]
                     | _ => []
                     end) tr.

Definition isBodyRead (e : Event) : bool :=
  match e with
  | EvJson | EvText => true
  | _ => false
  end.

Definition isTransformRequest (e : Event) : bool :=
  match e with
  | EvTransformRequest _ _ => true
  | _ => false
  end.

(** The own properties of a possibly [undefined] object. *)
Definition ownProps {V : Type} (o : option (JSObject V)) : JSObject V :=
  match o with Some x => x | None => [] end.

(** One [key=value] segment of the query text of lines 60-65. *)
Definition querySegment (kv : string * string) : string :=
  (fst kv ++ "=" ++ encodeURIComponent (snd kv))%string.

(** The URL object after the pairs [ps] were appended one by one
    (lines 67-69). *)
Definition withAppended (ps : list (string * string)) (u : URL) : URL :=
  match ps with
  | [] => u
  | _ =>
      {| url_head := url_head u;
         url_query := Some (formSerialize (url_list u ++ ps));
         url_list := url_list u ++ ps;
         url_fragment := url_fragment u |}
  end.

(** The built-in status validator of line 120. *)
Definition defaultValidateStatus (status : Z) : bool :=
  (200 <=? status) && (status <? 300).

(** The events before the transport call. *)
Definition isPrelude (e : Event) : bool :=
  match e with
  | EvTransformRequest _ _ | EvSetTimeout _ => true
  | _ => false
  end.

(** What the run hands to the transport when it gets that far: the URL
    text and the options (lines 96-115). *)
Definition handedToTransport (m : FetchMethod) (url : string) (d : JSValue)
  (cfg dfl : FetcherConfig) : option (string * RequestInit) :=
  match resolveUrl cfg dfl url with
  | inl _ => None
  | inr fu =>
      let hs := requestHeaders cfg dfl in
      match requestBody (effContentType cfg dfl) (outgoingPayload cfg dfl d hs) with
      | inl _ => None
      | inr b =>
          Some (fetchUrl_toString (appendParams cfg dfl fu),
                mkInit m hs b (mkSignal (armedTimeout cfg dfl)))
      end
  end.

(** The events of lines 117-145. *)
Definition isSettleEvent (e : Event) : bool :=
  match e with
  | EvValidateStatus _ | EvJson | EvText | EvTransformResponse _ => true
  | _ => false
  end.





End Dispatcher.

(* ================================================================== *)
(** ** The specification's reading of configuration precedence *)

(** "per-call value wins, else default value, else built-in fallback",
    where a value counts as soon as it is supplied. *)
Definition spec_supplied {A : Type} (percall dflt : option A) : option A :=
  match percall with
  | Some v => Some v
  | None => dflt
  end.

Definition spec_merge (over under : FetcherConfig) : FetcherConfig :=
  {| baseUrl := spec_supplied (baseUrl over) (baseUrl under);
     contentType := spec_supplied (contentType over) (contentType under);
     headers := spec_supplied (headers over) (headers under);
     params := spec_supplied (params over) (params under);
     timeout := spec_supplied (timeout over) (timeout under);
     transformRequest :=
       spec_supplied (transformRequest over) (transformRequest under);
     transformResponse :=
       spec_supplied (transformResponse over) (transformResponse under);
     validateStatus := spec_supplied (validateStatus over) (validateStatus under);
     token := spec_supplied (token over) (token under) |}.

(** The built-in fallbacks of the dispatcher. *)
Definition builtinFallbacks : FetcherConfig :=
  {| baseUrl := Some "";
     contentType := Some "application/json";
     headers := None;
     params := None;
     timeout := None;
     transformRequest := None;
     transformResponse := None;
     validateStatus := Some (fun status => (200 <=? status) && (status <? 300));
     token := None |}.

(** "the field-by-field merge of per-call config over process-wide defaults
    over built-in fallbacks" *)
Definition spec_effective_config (cfg dfl : FetcherConfig) : FetcherConfig :=
  spec_merge cfg (spec_merge dfl builtinFallbacks).

(** The first of the per-call and the default value that is supplied and
    truthy. *)
Definition firstTruthy {A : Type} (t : A -> bool) (percall dflt : option A)
  : option A :=
  if truthyOpt t percall then percall
  else if truthyOpt t dflt then dflt
  else None.

(* ================================================================== *)
(** ** A small platform to run examples on

    The theorems below hold for every [Platform].  To evaluate the
    dispatcher on concrete calls we fix a simple one: its URL parser knows
    the three schemes of the dispatcher's own test and resolves a
    reference against the origin of the base (absolute path) or against
    the base taken as a directory; its serializers cover strings, numbers,
    booleans, arrays and objects without characters that need escaping. *)

Module Example.

Fixpoint splitFirst (c : ascii) (s : string) : string * option string :=
  match s with
  | EmptyString => (EmptyString, None)
  | String a r =>
      if Ascii.eqb a c then (EmptyString, Some r)
      else let '(h, t) := splitFirst c r in (String a h, t)
  end.

Fixpoint splitAll (c : ascii) (s : string) : list string :=
  match s with
  | EmptyString => [EmptyString]
  | String a r =>
      if Ascii.eqb a c then EmptyString :: splitAll c r
      else match splitAll c r with
           | h :: t => String a h :: t
           | [] => [String a EmptyString]
           end
  end.

Definition parseQuery (q : string) : list (string * string) :=
  map (fun seg =>
         let '(k, v) := splitFirst "=" seg in
         (k, match v with Some v => v | None => "" end))
      (filter (fun seg => negb (seg =? "")%string) (splitAll "&" q)).

Definition dropScheme (s : string) : option (string * string) :=
  if String.prefix "http://" s then Some ("http://", substring 7 (length s) s)
  else if String.prefix "https://" s then Some ("https://", substring 8 (length s) s)
  else if String.prefix "ftp://" s then Some ("ftp://", substring 6 (length s) s)
  else None.

Definition invalidUrl : JSError := mkError "TypeError" "Invalid URL".

Definition parseAbsolute (s : string) : Result URL :=
  match dropScheme s with
  | None => inl invalidUrl
  | Some (scheme, rest) =>
      let '(pre, frag) := splitFirst "#" rest in
      let '(hp, q) := splitFirst "?" pre in
      let '(host, path) := splitFirst "/" hp in
      if (host =? "")%string then inl invalidUrl
      else
        inr {| url_head :=
                 (scheme ++ host ++ "/"
                  ++ match path with Some p => p | None => "" end)%string;
               url_query := q;
               url_list := match q with Some q => parseQuery q | None => [] end;
               url_fragment := frag |}
  end.

Definition originOf (s : string) : option string :=
  match dropScheme s with
  | None => None
  | Some (scheme, rest) =>
      let '(host, _) := splitFirst "/" (fst (splitFirst "?" (fst (splitFirst "#" rest)))) in
      if (host =? "")%string then None else Some (scheme ++ host)%string
  end.

Definition example_URL_new (url : string) (base : option string) : Result URL :=
  if isAbsolute url then parseAbsolute url
  else
    match base with
    | None => inl invalidUrl
    | Some b =>
        match originOf b, parseAbsolute b with
        | Some origin, inr bu =>
            if String.prefix "/" url then parseAbsolute (origin ++ url)
            else parseAbsolute (url_head bu ++ url)
        | _, _ => inl invalidUrl
        end
    end.

Definition dquote : ascii := "034"%char.

Definition quote (s : string) : string := String dquote (s ++ String dquote "").

Fixpoint example_stringify (v : JSValue) : string :=
  match v with
  | JUndefined | JNull => "null"
  | JBool true => "true"
  | JBool false => "false"
  | JNum n => string_of_Z n
  | JStr s => quote s
  | JArr l => ("[" ++ join "," (map example_stringify l) ++ "]")%string
  | JObj o =>
      ("{" ++ join ","
                (map (fun kv =>
                        (quote (fst kv) ++ ":" ++ example_stringify (snd kv))%string)
                   o)
           ++ "}")%string
  end.

Definition formField (v : JSValue) : option string :=
  match v with
  | JStr s => Some s
  | JNum n => Some (string_of_Z n)
  | JBool true => Some "true"
  | JBool false => Some "false"
  | JNull => Some "null"
  | JUndefined => Some "undefined"
  | _ => None
  end.

Fixpoint formFields (o : list (string * JSValue)) : option (list (string * string)) :=
  match o with
  | [] => Some []
  | (k, v) :: r =>
      match formField v, formFields r with
      | Some s, Some l => Some ((k, s) :: l)
      | _, _ => None
      end
  end.

Definition example_form (v : JSValue) : Result string :=
  match v with
  | JObj o =>
      match formFields o with
      | Some l => inr (formSerialize l)
      | None => inl (mkError "TypeError" "unsupported form value")
      end
  | JStr s => inr (formSerialize (parseQuery s))
  | _ => inl (mkError "TypeError" "unsupported form value")
  end.

#[export] Instance examplePlatform : Platform :=
  {| URL_new := example_URL_new;
     JSON_stringify := example_stringify;
     URLSearchParams_toString := example_form |}.

(** A transport without state that answers every call with [r], the
    same response object each time. *)
Definition constTransport (r : Result Response) : Transport unit :=
  fun _ _ ts =>
    (match r with inl e => inl e | inr x => inr (0%nat, x) end, ts).

Definition jsonResponse (st : Z) (text : string) (v : JSValue) : Response :=
  {| resp_status := st;
     resp_statusText := text;
     resp_headers := [("content-type", "application/json")];
     resp_json := inr v;
     resp_text := inr (example_stringify v) |}.

Definition okBody : JSValue := JObj [("message", JStr "success")].

Definition worldWith (dfl : FetcherConfig) (r : Result Response) : World unit :=
  mkWorld dfl (Some (constTransport r)) tt [].



Definition ok200 : Response := jsonResponse 200 "OK" okBody.

(** The envelope of an accepted [ok200] for a per-call config [cfg]. *)
Definition okEnvelope (cfg : FetcherConfig) : FetcherResponse :=
  {| data := okBody;
     status := 200;
     statusText := "OK";
     responseHeaders := [("content-type", "application/json")];
     config := cfg;
     rawResponse := ok200 |}.

(** Defaults that only set a timeout. *)
Definition timeoutDefaults (ms : Z) : FetcherConfig :=
  mkConfig None None None None (Some ms) None None None None.

Definition apiBase : string := "https://api.example.com".

(** [{ baseUrl: apiBase, timeout: 5000 }] as defaults. *)
Definition apiDefaults : FetcherConfig :=
  mkConfig (Some apiBase) None None None (Some 5000) None None None None.

(** [{ baseUrl: '', timeout: 0 }] *)
Definition falsyConfig : FetcherConfig :=
  mkConfig (Some "") None None None (Some 0) None None None None.

(** [{ baseUrl: '' }] *)
Definition emptyBaseConfig : FetcherConfig :=
  mkConfig (Some "") None None None None None None None None.

(** [{ params: ps }] *)
Definition paramsConfig (ps : JSObject string) : FetcherConfig :=
  mkConfig None None None (Some ps) None None None None None.

(** [{ headers: { Authorization: 'Basic dXNlcg==' }, token: t }] *)
Definition tokenConfig (t : string) : FetcherConfig :=
  mkConfig None None (Some [("Authorization", "Basic dXNlcg==")]) None None
    None None None (Some t).

(** [{ transformRequest: f }] *)
Definition transformConfig (f : JSValue -> JSObject string -> JSValue)
  : FetcherConfig :=
  mkConfig None None None None None (Some f) None None None.

(** [{ contentType: 'application/x-www-form-urlencoded' }] *)
Definition formConfig : FetcherConfig :=
  mkConfig None (Some "application/x-www-form-urlencoded") None None None
    None None None None.



(** The mocked answer of the repository's test ['GET request']: status 200,
    a [json()] method, an empty header collection and no [text()] method
    (calling it throws). *)
Definition testMock : Response :=
  {| resp_status := 200;
     resp_statusText := "OK";
     resp_headers := [];
     resp_json := inr okBody;
     resp_text := inl (mkError "TypeError" "response.text is not a function") |}.

(** The options of a call without payload, token or timeout. *)
Definition plainInit (m : FetchMethod) : RequestInit :=
  {| method := m;
     initHeaders := [("Content-Type", "application/json")];
     body := None;
     signal := mkSignal None |}.

End Example.

(* ================================================================== *)
(** ** Further notions: reading a query text back, event kinds *)

Module Query.

Fixpoint hasChar (c : ascii) (s : string) : bool :=
  match s with
  | EmptyString => false
  | String a r => Ascii.eqb a c || hasChar c r
  end.

(** A key that the query text of lines 60-65, which writes keys as they
    are, does not break: no [&] and no [=] in it. *)
Definition safeKey (k : string) : bool :=
  negb (hasChar "&" k) && negb (hasChar "=" k).

(** Reading a query text: the segments between [&], each split at its
    first [=], the value decoded. *)
Definition readQuery (q : string) : list (string * string) :=
  map (fun kv => (fst kv, pctDecode (snd kv))) (Example.parseQuery q).

End Query.
Export Query.

(** More sample values for worked runs. *)
Module Samples.

Import Example.

(** No [fetch] in scope. *)
Definition bareWorld : World unit := mkWorld emptyConfig None tt [].

(** [{ headers: hs }] *)
Definition headersConfig (hs : JSObject string) : FetcherConfig :=
  mkConfig None None (Some hs) None None None None None None.


Definition failedToFetch : JSError := mkError "TypeError" "Failed to fetch".

(** [{ transformRequest: f, token: 'abc' }] *)
Definition transformTokenConfig (f : JSValue -> JSObject string -> JSValue)
  : FetcherConfig :=
  mkConfig None None None None None (Some f) None None (Some "abc").



Definition upper (d : JSValue) (_ : JSObject string) : JSValue :=
  match d with
  | JStr _ => JStr "A"
  | _ => d
  end.

(** Runs used below. *)
Definition acceptInit : RequestInit :=
  {| method := GET;
     initHeaders := [("X-App", "1"); ("Accept", "application/json");
                     ("Content-Type", "application/json")];
     body := None;
     signal := mkSignal None |}.

Definition acceptWorld : World unit :=
  worldWith (headersConfig [("X-App", "1"); ("Accept", "text/plain")])
    (inr ok200).

Definition acceptConfig : FetcherConfig :=
  headersConfig [("Accept", "application/json")].

Definition timedInit : RequestInit :=
  {| method := GET;
     initHeaders := [("Content-Type", "application/json")];
     body := None;
     signal := mkSignal (Some 5000) |}.

Definition bearerHeaders : JSObject string :=
  [("Content-Type", "application/json"); ("Authorization", "Bearer abc")].

Definition sampleParams : JSObject string :=
  [("q", "a b&c=d"); ("page", "2")].

End Samples.

Definition isFetch (e : Event) : bool :=
  match e with
  | EvFetch _ _ _ => true
  | _ => false
  end.

Definition isValidate (e : Event) : bool :=
  match e with
  | EvValidateStatus _ => true
  | _ => false
  end.

Definition isTransformResponse (e : Event) : bool :=
  match e with
  | EvTransformResponse _ => true
  | _ => false
  end.

(** A phase of a run: at most one event, of the given kind. *)
Definition phase (kind : Event -> bool) (l : list Event) : Prop :=
  (List.length l <= 1)%nat /\ Forall (fun e => kind e = true) l.

Definition isTimer (e : Event) : bool :=
  match e with
  | EvSetTimeout _ => true
  | _ => false
  end.

(** A config with its [token] field replaced. *)
Definition withToken (t : option string) (c : FetcherConfig) : FetcherConfig :=
  {| baseUrl := baseUrl c;
     contentType := contentType c;
     headers := headers c;
     params := params c;
     timeout := timeout c;
     transformRequest := transformRequest c;
     transformResponse := transformResponse c;
     validateStatus := validateStatus c;
     token := t |}.

(** The world with other defaults. *)
Definition withDefaults {TS : Type} (dfl : FetcherConfig) (w : World TS)
  : World TS :=
  mkWorld dfl (fetch w) (tstate w) (bodyUsed w).

(* ================================================================== *)
(** ** Facts about objects *)

Section ObjectFacts.

Variable V : Type.
Implicit Types (o s t : JSObject V) (k : string) (v : V).

Lemma obj_get_None k o : obj_get k o = None <-> ~ In k (keys o).
Proof.
  induction o as [|[k' v'] r IH]; simpl.
  - tauto.
  - destruct (String.eqb_spec k' k) as [->|Hne].
    + split; [discriminate | intros H; exfalso; apply H; now left].
    + rewrite IH. split; [intros H [E|I]; [congruence | tauto] | tauto].
Qed.

Lemma obj_get_Some_In k v o : obj_get k o = Some v -> In (k, v) o.
Proof.
  induction o as [|[k' v'] r IH]; simpl; [discriminate|].
  destruct (String.eqb_spec k' k) as [->|Hne].
  - intros [= ->]. now left.
  - intros H. right. auto.
Qed.

Lemma obj_has_true k o : obj_has k o = true <-> In k (keys o).
Proof.
  unfold obj_has. destruct (obj_get k o) eqn:E.
  - split; [intros _ | reflexivity].
    apply obj_get_Some_In in E. apply (in_map fst) in E. exact E.
  - apply obj_get_None in E. split; [discriminate | tauto].
Qed.

Lemma obj_has_false k o : obj_has k o = false <-> ~ In k (keys o).
Proof.
  rewrite <- obj_has_true. destruct (obj_has k o); split; congruence.
Qed.

Lemma keys_update k v o : keys (obj_update k v o) = keys o.
Proof.
  induction o as [|[k' v'] r IH]; simpl; [reflexivity|].
  destruct (k' =? k)%string; simpl; [reflexivity | now rewrite IH].
Qed.

Lemma obj_get_update k k' v o :
  obj_get k' (obj_update k v o)
  = if (k =? k')%string then option_map (fun _ => v) (obj_get k' o)
    else obj_get k' o.
Proof.
  induction o as [|[k1 v1] r IH]; simpl.
  - now destruct (k =? k')%string.
  - destruct (String.eqb_spec k1 k) as [->|Hne]; simpl.
    + destruct (String.eqb_spec k k'); reflexivity.
    + destruct (String.eqb_spec k1 k') as [->|Hne'].
      * destruct (String.eqb_spec k k'); [congruence | reflexivity].
      * exact IH.
Qed.

Lemma in_keys_insert_index n k v o k' :
  In k' (keys (obj_insert_index n k v o)) <-> k' = k \/ In k' (keys o).
Proof.
  induction o as [|[k1 v1] r IH]; simpl.
  - intuition congruence.
  - destruct (array_index k1) as [m|]; [destruct (m <? n)%N|]; simpl;
      rewrite ?IH; intuition congruence.
Qed.

Lemma NoDup_insert_index n k v o :
  ~ In k (keys o) -> NoDup (keys o) -> NoDup (keys (obj_insert_index n k v o)).
Proof.
  induction o as [|[k1 v1] r IH]; simpl; intros Hk Hnd.
  - constructor; [tauto | constructor].
  - inversion Hnd as [|? ? Hk1 Hr]; subst.
    destruct (array_index k1) as [m|]; [destruct (m <? n)%N|]; simpl.
    + constructor.
      * rewrite in_keys_insert_index. intuition congruence.
      * apply IH; tauto.
    + constructor; [simpl; tauto | simpl; now constructor].
    + constructor; [simpl; tauto | simpl; now constructor].
Qed.

Lemma obj_get_insert_index n k v o k' :
  ~ In k (keys o) ->
  obj_get k' (obj_insert_index n k v o)
  = if (k =? k')%string then Some v else obj_get k' o.
Proof.
  induction o as [|[k1 v1] r IH]; simpl; intros Hk.
  - reflexivity.
  - assert (Hk1 : k1 <> k) by tauto.
    assert (Hr : ~ In k (keys r)) by tauto.
    destruct (array_index k1) as [m|]; [destruct (m <? n)%N|]; simpl;
      try reflexivity.
    rewrite (IH Hr).
    destruct (String.eqb_spec k1 k') as [->|Hne'];
      destruct (String.eqb_spec k k'); congruence.
Qed.

Lemma obj_get_app k o s :
  obj_get k (o ++ s) = match obj_get k o with
                       | Some v => Some v
                       | None => obj_get k s
                       end.
Proof.
  induction o as [|[k1 v1] r IH]; simpl; [reflexivity|].
  now destruct (k1 =? k)%string.
Qed.

(** Reading a property after a write. *)
Lemma obj_get_set k v o k' :
  obj_get k' (obj_set k v o)
  = if (k =? k')%string then Some v else obj_get k' o.
Proof.
  unfold obj_set. destruct (obj_has k o) eqn:Hh.
  - rewrite obj_get_update.
    destruct (String.eqb_spec k k') as [->|]; [|reflexivity].
    unfold obj_has in Hh. now destruct (obj_get k' o).
  - apply obj_has_false in Hh.
    destruct (array_index k) as [n|].
    + now apply obj_get_insert_index.
    + rewrite obj_get_app. simpl.
      destruct (String.eqb_spec k k') as [->|].
      * apply obj_get_None in Hh. now rewrite Hh.
      * now destruct (obj_get k' o).
Qed.

Lemma in_keys_set k v o k' :
  In k' (keys (obj_set k v o)) <-> k' = k \/ In k' (keys o).
Proof.
  unfold obj_set. destruct (obj_has k o) eqn:Hh.
  - rewrite keys_update. apply obj_has_true in Hh.
    intuition congruence.
  - destruct (array_index k) as [n|].
    + apply in_keys_insert_index.
    + unfold keys. rewrite map_app, in_app_iff. simpl. intuition congruence.
Qed.

Lemma wf_obj_set k v o : wf_obj o -> wf_obj (obj_set k v o).
Proof.
  unfold wf_obj, obj_set. intros Hnd. destruct (obj_has k o) eqn:Hh.
  - now rewrite keys_update.
  - apply obj_has_false in Hh. destruct (array_index k) as [n|].
    + now apply NoDup_insert_index.
    + unfold keys in *. rewrite map_app. simpl.
      apply NoDup_app; [exact Hnd | repeat constructor; simpl; tauto |].
      intros x Hx [<-|[]]. contradiction.
Qed.

Lemma wf_obj_assign t s : wf_obj t -> wf_obj (obj_assign t s).
Proof.
  unfold obj_assign. revert t.
  induction s as [|[k v] r IH]; simpl; intros t Ht; [exact Ht|].
  apply IH. now apply wf_obj_set.
Qed.

Lemma in_keys_assign t s k :
  In k (keys (obj_assign t s)) <-> In k (keys t) \/ In k (keys s).
Proof.
  unfold obj_assign. revert t.
  induction s as [|[k1 v1] r IH]; simpl; intros t.
  - tauto.
  - rewrite IH, in_keys_set. intuition congruence.
Qed.

(** Reading a property of [{ ...t, ...s }]: the one of [s] when it has the
    key, else the one of [t]. *)
Lemma obj_get_assign t s k :
  wf_obj s ->
  obj_get k (obj_assign t s) = match obj_get k s with
                               | Some v => Some v
                               | None => obj_get k t
                               end.
Proof.
  unfold obj_assign, wf_obj. revert t.
  induction s as [|[k1 v1] r IH]; simpl; intros t Hnd; [reflexivity|].
  inversion Hnd as [|? ? Hk1 Hr]; subst.
  rewrite (IH _ Hr), obj_get_set.
  destruct (String.eqb_spec k1 k) as [->|Hne]; [|reflexivity].
  apply obj_get_None in Hk1. now rewrite Hk1.
Qed.

Lemma wf_obj_spread t (s : option (JSObject V)) :
  wf_obj t -> wf_obj (spread t s).
Proof. destruct s; simpl; [apply wf_obj_assign | trivial]. Qed.

End ObjectFacts.

(* ================================================================== *)
(** ** Facts about strings and percent-encoding *)

Lemma append_assoc (a b c : string) : ((a ++ b) ++ c = a ++ (b ++ c))%string.
Proof. induction a as [|x a IH]; simpl; [reflexivity | now rewrite IH]. Qed.

Lemma append_nil_r (a : string) : (a ++ "" = a)%string.
Proof. induction a as [|x a IH]; simpl; [reflexivity | now rewrite IH]. Qed.

Lemma dropLast_app (a b : string) :
  b <> "" -> (dropLast (a ++ b) = a ++ dropLast b)%string.
Proof.
  intros Hb. induction a as [|x a IH]; simpl; [reflexivity|].
  rewrite IH. destruct (a ++ b)%string eqn:E; [|reflexivity].
  destruct a; simpl in E; [congruence | discriminate].
Qed.

(** The loop of lines 60-64 followed by [slice(0, -1)] joins the
    [key=value] segments with [&]. *)
Lemma fold_segments (f : string * string -> string) ps acc :
  fold_left (fun a kv => (a ++ f kv ++ "&")%string) ps acc
  = (acc ++ fold_left (fun a kv => (a ++ f kv ++ "&")%string) ps "")%string.
Proof.
  revert acc. induction ps as [|kv r IH]; intros acc; simpl.
  - now rewrite append_nil_r.
  - rewrite (IH (acc ++ f kv ++ "&")%string), (IH (f kv ++ "&")%string).
    now rewrite !append_assoc.
Qed.

Lemma dropLast_segments (f : string * string -> string) ps :
  dropLast (fold_left (fun a kv => (a ++ f kv ++ "&")%string) ps "")
  = join "&" (map f ps).
Proof.
  induction ps as [|kv r IH]; [reflexivity|].
  simpl fold_left. rewrite fold_segments.
  destruct r as [|kv' r'].
  - simpl. rewrite append_nil_r.
    rewrite dropLast_app by discriminate. simpl. apply append_nil_r.
  - rewrite append_assoc, dropLast_app.
    + rewrite dropLast_app, IH; [reflexivity|].
      simpl fold_left. rewrite fold_segments.
      destruct (f kv'); discriminate.
    + simpl fold_left. rewrite fold_segments.
      destruct (f kv'); discriminate.
Qed.

Lemma hex_roundtrip (c : ascii) :
  hexValue (hexDigit (N_of_ascii c / 16)) = Some (N_of_ascii c / 16)%N
  /\ hexValue (hexDigit (N_of_ascii c mod 16)) = Some (N_of_ascii c mod 16)%N
  /\ ascii_of_N (16 * (N_of_ascii c / 16) + N_of_ascii c mod 16) = c.
Proof.
  destruct c as [[] [] [] [] [] [] [] []]; vm_compute; repeat split.
Qed.

Lemma decodeWith_plain plus c r :
  Ascii.eqb c "%" = false ->
  decodeWith plus (String c r) = String (unplus plus c) (decodeWith plus r).
Proof.
  intros H. destruct r as [|h [|l r']]; simpl; rewrite ?H; reflexivity.
Qed.

Lemma decodeWith_pctByte plus c r :
  decodeWith plus (pctByte c ++ r) = String c (decodeWith plus r).
Proof.
  destruct (hex_roundtrip c) as (Hh & Hl & Hc).
  unfold pctByte. cbn [append decodeWith]. rewrite Ascii.eqb_refl, Hh, Hl, Hc.
  reflexivity.
Qed.

(** Decoding undoes encoding, whenever [%] (and [+] when it stands for a
    space) is not left as it is. *)
Lemma decode_encode safe plus s :
  safe "%"%char = false ->
  (plus = true -> safe "+"%char = false) ->
  decodeWith plus (encodeWith safe plus s) = s.
Proof.
  intros Hpct Hplus. induction s as [|c r IH]; [reflexivity|].
  cbn [encodeWith]. destruct (safe c) eqn:Hs.
  - assert (Hc : Ascii.eqb c "%" = false).
    { destruct (Ascii.eqb_spec c "%"%char); [subst; congruence | reflexivity]. }
    rewrite decodeWith_plain, IH by exact Hc. f_equal.
    unfold unplus. destruct plus; [|reflexivity]. simpl.
    destruct (Ascii.eqb_spec c "+"%char); [subst|reflexivity].
    rewrite (Hplus eq_refl) in Hs. discriminate.
  - destruct (plus && Ascii.eqb c " ")%bool eqn:Hsp.
    + apply andb_true_iff in Hsp. destruct Hsp as [-> Hsp].
      apply Ascii.eqb_eq in Hsp. subst c.
      rewrite decodeWith_plain, IH by reflexivity. reflexivity.
    + now rewrite decodeWith_pctByte, IH.
Qed.

Lemma encodedOver_encode safe plus s :
  safe "%"%char = false ->
  encodedOver safe plus (encodeWith safe plus s) = true.
Proof.
  intros Hpct. induction s as [|c r IH]; [reflexivity|].
  cbn [encodeWith]. destruct (safe c) eqn:Hs.
  - cbn [encodedOver].
    destruct (Ascii.eqb_spec c "%"%char); [subst; congruence|].
    now rewrite Hs, IH.
  - destruct (plus && Ascii.eqb c " ")%bool eqn:Hsp.
    + apply andb_true_iff in Hsp. destruct Hsp as [-> _].
      cbn [encodedOver]. simpl Ascii.eqb. cbv iota. rewrite IH.
      now rewrite orb_true_r.
    + destruct (hex_roundtrip c) as (Hh & Hl & _).
      unfold pctByte. cbn [append encodedOver]. rewrite Ascii.eqb_refl, Hh, Hl.
      exact IH.
Qed.

(** [encodeURIComponent] writes unreserved characters and [%XY] triples,
    and [decodeURIComponent] reads the value back. *)
Lemma encodeURIComponent_encoded v :
  encodedOver uriUnreserved false (encodeURIComponent v) = true
  /\ pctDecode (encodeURIComponent v) = v.
Proof.
  split.
  - now apply encodedOver_encode.
  - apply decode_encode; [reflexivity | discriminate].
Qed.

(** The form serializer writes safe characters, [+] and [%XY] triples, and
    the form decoder reads the value back. *)
Lemma formEncode_encoded v :
  encodedOver formSafe true (formEncode v) = true
  /\ formDecode (formEncode v) = v.
Proof.
  split.
  - now apply encodedOver_encode.
  - apply decode_encode; reflexivity.
Qed.


(* ================================================================== *)
(** ** How a run of the dispatcher unfolds *)

Section RunFacts.

Context {P : Platform}.
Variable TS : Type.
Implicit Types (w : World TS) (cfg dfl : FetcherConfig).

Lemma bind_run {A B} (m : M TS A) (k : A -> M TS B) w :
  bind m k w
  = match result (m w) with
    | inl e => mkOutcome (inl e) (world (m w)) (trace (m w))
    | inr a =>
        let o := k a (world (m w)) in
        mkOutcome (result o) (world o) (trace (m w) ++ trace o)
    end.
Proof. reflexivity. Qed.

Lemma applyTransformRequest_run cfg dfl d hs w :
  applyTransformRequest cfg dfl d hs w
  = mkOutcome (inr (outgoingPayload cfg dfl d hs)) w
      (transformRequestEvents cfg dfl d hs).
Proof.
  unfold applyTransformRequest, outgoingPayload, transformRequestEvents,
    or_else, emit, bind, ret.
  destruct (truthy d); simpl; [|reflexivity].
  destruct (transformRequest cfg); simpl; [reflexivity|].
  destruct (transformRequest dfl); reflexivity.
Qed.

Lemma armTimeout_run cfg dfl w :
  armTimeout cfg dfl w
  = mkOutcome (inr (mkSignal (armedTimeout cfg dfl))) w (timerEvents cfg dfl).
Proof.
  unfold armTimeout, timerEvents, armedTimeout, emit, bind, ret.
  destruct (effTimeout cfg dfl) as [t|]; simpl; [|reflexivity].
  destruct (truthyNum t); reflexivity.
Qed.

(** The response is rejected: the status error, and the body is not read. *)
Lemma settle_rejected cfg dfl h r w :
  effValidateStatus cfg dfl (resp_status r) = false ->
  settle cfg dfl h r w
  = mkOutcome
      (inl (Error ("Request failed with status code "
                   ++ string_of_Z (resp_status r))))
      w [EvValidateStatus (resp_status r)].
Proof.
  intros H. unfold settle, checkStatus, bind, emit, throw. simpl.
  rewrite H. reflexivity.
Qed.

(** The response is accepted: the body is read, and the call returns when
    the reading succeeds. *)
Lemma settle_accepted cfg dfl h r w :
  effValidateStatus cfg dfl (resp_status r) = true ->
  settle cfg dfl h r w
  = match decodedBody r with
    | inl e =>
        mkOutcome (inl e) (markUsed h w)
          [EvValidateStatus (resp_status r); readEvent r]
    | inr v =>
        mkOutcome
          (inr {| data := transformedData cfg dfl v;
                  status := resp_status r;
                  statusText := resp_statusText r;
                  responseHeaders := fromEntries (resp_headers r);
                  config := cfg;
                  rawResponse := r |})
          (markUsed h w)
          ([EvValidateStatus (resp_status r); readEvent r]
           ++ transformResponseEvents cfg dfl v)
    end.
Proof.
  intros H.
  unfold settle, checkStatus, readBody, applyTransformResponse, bind, emit,
    throw, ret, liftR, useBody. simpl. rewrite H. simpl.
  unfold decodedBody, readEvent, declaresJson, transformedData,
    transformResponseEvents, or_else.
  destruct (headers_get "content-type" r) as [ct|]; simpl.
  - destruct (includes "application/json" ct); simpl.
    + destruct (resp_json r) as [e|v]; simpl; [reflexivity|].
      destruct (transformResponse cfg); simpl; [reflexivity|].
      destruct (transformResponse dfl); reflexivity.
    + destruct (resp_text r) as [e|v]; simpl; [reflexivity|].
      destruct (transformResponse cfg); simpl; [reflexivity|].
      destruct (transformResponse dfl); reflexivity.
  - destruct (resp_text r) as [e|v]; simpl; [reflexivity|].
    destruct (transformResponse cfg); simpl; [reflexivity|].
    destruct (transformResponse dfl); reflexivity.
Qed.

(** Settling changes nothing in the world but the used bodies. *)
Lemma settle_world cfg dfl h r w :
  world (settle cfg dfl h r w)
  = if effValidateStatus cfg dfl (resp_status r) then markUsed h w else w.
Proof.
  destruct (effValidateStatus cfg dfl (resp_status r)) eqn:H.
  - rewrite (settle_accepted _ _ _ _ _ H). now destruct (decodedBody r).
  - now rewrite (settle_rejected _ _ _ _ _ H).
Qed.

Lemma settle_globals cfg dfl h r w :
  defaults (world (settle cfg dfl h r w)) = defaults w
  /\ fetch (world (settle cfg dfl h r w)) = fetch w
  /\ tstate (world (settle cfg dfl h r w)) = tstate w.
Proof.
  rewrite settle_world. now destruct (effValidateStatus _ _ _).
Qed.

(** The run of [request], stage by stage. *)
Lemma request_run m url d config w :
  request m url d config w
  = let cfg := givenConfig config in
    let dfl := defaults w in
    match fetch w with
    | None => mkOutcome (inl fetchMissing) w []
    | Some f =>
        match resolveUrl cfg dfl url with
        | inl e => mkOutcome (inl e) w []
        | inr fu =>
            let hs := requestHeaders cfg dfl in
            let d' := outgoingPayload cfg dfl d hs in
            let pre := transformRequestEvents cfg dfl d hs in
            match requestBody (effContentType cfg dfl) d' with
            | inl e => mkOutcome (inl e) w pre
            | inr b =>
                let init := mkInit m hs b (mkSignal (armedTimeout cfg dfl)) in
                let target := fetchUrl_toString (appendParams cfg dfl fu) in
                let ans := f target init (tstate w) in
                let w' := mkWorld dfl (fetch w) (snd ans) (bodyUsed w) in
                let evs :=
                  pre ++ timerEvents cfg dfl
                      ++ [EvFetch target init (answerView w (fst ans))] in
                match fst ans with
                | inl e => mkOutcome (inl e) w' evs
                | inr a =>
                    let o := settle cfg dfl (fst a) (viewOf w a) w' in
                    mkOutcome (result o) (world o) (evs ++ trace o)
                end
            end
        end
    end.
Proof.
  unfold request. generalize (givenConfig config) as cfg. intros cfg.
  cbv zeta. unfold requireFetch, getDefaults, liftR, callFetch.
  rewrite bind_run.
  destruct (fetch w) as [f|] eqn:Hf; cbn [result world trace]; [|reflexivity].
  rewrite bind_run. cbn [result world trace].
  rewrite bind_run. cbn [result world trace].
  destruct (resolveUrl cfg (defaults w) url) as [e|fu];
    cbn [result world trace app]; [reflexivity|].
  rewrite bind_run, applyTransformRequest_run. cbn [result world trace].
  rewrite bind_run. cbn [result world trace].
  destruct (requestBody _ _) as [e|b]; cbn [result world trace app];
    [now rewrite app_nil_r|].
  rewrite bind_run, armTimeout_run. cbn [result world trace].
  rewrite bind_run.
  destruct (f _ _ (tstate w)) as [ans ts] eqn:Hans.
  cbn [result world trace fst snd].
  destruct ans as [e|a]; cbn [result world trace app answerView].
  - rewrite Hf. reflexivity.
  - rewrite bind_run.
    cbn [result world trace defaults app fst snd].
    rewrite Hf. rewrite <- !app_assoc. reflexivity.
Qed.

End RunFacts.

(* ================================================================== *)
(** ** Traces of a run *)

Section TraceFacts.

Context {P : Platform}.
Variable TS : Type.
Implicit Types (w : World TS) (cfg dfl : FetcherConfig).

Lemma fetchCalls_app (a b : list Event) :
  fetchCalls (a ++ b) = fetchCalls a ++ fetchCalls b.
Proof. unfold fetchCalls. apply flat_map_app. Qed.

Lemma settle_events cfg dfl h r w :
  Forall (fun e => isSettleEvent e = true) (trace (settle cfg dfl h r w)).
Proof.
  destruct (effValidateStatus cfg dfl (resp_status r)) eqn:H.
  - rewrite (settle_accepted _ _ _ _ _ H).
    unfold readEvent, transformResponseEvents.
    destruct (decodedBody r); cbn [trace]; destruct (declaresJson r);
      repeat constructor.
    all: destruct (or_else _ _ _); repeat constructor.
  - rewrite (settle_rejected _ _ _ _ _ H). repeat constructor.
Qed.

Lemma settle_no_fetch cfg dfl h r w :
  fetchCalls (trace (settle cfg dfl h r w)) = [].
Proof.
  pose proof (settle_events cfg dfl h r w) as H.
  induction H as [|e l He _ IH]; [reflexivity|].
  simpl. rewrite IH. now destruct e.
Qed.

Lemma settle_no_transformRequest cfg dfl h r w e :
  In e (trace (settle cfg dfl h r w)) -> isTransformRequest e = false.
Proof.
  intros Hin. pose proof (settle_events cfg dfl h r w) as H.
  rewrite Forall_forall in H. specialize (H e Hin). now destruct e.
Qed.


Lemma fetchCalls_transform cfg dfl d hs :
  fetchCalls (transformRequestEvents cfg dfl d hs) = [].
Proof.
  unfold transformRequestEvents.
  destruct (truthy d); [destruct (or_else _ _ _)|]; reflexivity.
Qed.

Lemma fetchCalls_timer cfg dfl : fetchCalls (timerEvents cfg dfl) = [].
Proof. unfold timerEvents. now destruct (armedTimeout cfg dfl). Qed.

(** A run calls the transport at most once, and exactly with what
    [handedToTransport] computes. *)
Lemma request_fetchCalls m url d config w :
  fetchCalls (trace (request m url d config w))
  = match fetch w with
    | None => []
    | Some _ =>
        match handedToTransport m url d (givenConfig config) (defaults w) with
        | Some call => [call]
        | None => []
        end
    end.
Proof.
  rewrite request_run. cbv zeta. unfold handedToTransport.
  destruct (fetch w) as [f|]; [|reflexivity].
  destruct (resolveUrl _ _ url) as [e|fu]; [reflexivity|].
  destruct (requestBody _ _) as [e|b]; cbn [trace].
  - apply fetchCalls_transform.
  - destruct (fst (f _ _ (tstate w))) as [e|a]; cbn [trace answerView];
      rewrite !fetchCalls_app, fetchCalls_transform, fetchCalls_timer,
        ?settle_no_fetch; reflexivity.
Qed.

Lemma request_handed m url d config w u i :
  In (u, i) (fetchCalls (trace (request m url d config w))) ->
  handedToTransport m url d (givenConfig config) (defaults w) = Some (u, i).
Proof.
  rewrite request_fetchCalls.
  destruct (fetch w); [|intros []].
  destruct (handedToTransport _ _ _ _ _) as [c|]; [|intros []].
  intros [->|[]]. reflexivity.
Qed.

(** A run leaves the defaults and the [fetch] binding as they were. *)
Lemma request_world m url d config w :
  defaults (world (request m url d config w)) = defaults w
  /\ fetch (world (request m url d config w)) = fetch w.
Proof.
  rewrite request_run. cbv zeta.
  destruct (fetch w) as [f|] eqn:Hf;
    [|cbn [world defaults fetch]; split; auto].
  destruct (resolveUrl _ _ url); [cbn [world defaults fetch]; split; auto|].
  destruct (requestBody _ _); [cbn [world defaults fetch]; split; auto|].
  destruct (fst (f _ _ (tstate w))) as [e|a]; cbn [world defaults fetch];
    [now split|].
  match goal with |- context [settle ?c ?dd ?h ?r ?w0] =>
    destruct (settle_globals c dd h r w0) as (-> & -> & _) end.
  now split.
Qed.


End TraceFacts.

(* ================================================================== *)
(** ** The envelope, the wrappers, repeated calls, falsy payloads *)

Section Envelope.

Context {P : Platform}.
Variable TS : Type.
Implicit Types (w : World TS) (cfg dfl : FetcherConfig).

Lemma settle_envelope cfg dfl h r w env :
  result (settle cfg dfl h r w) = inr env ->
  config env = cfg /\ status env = resp_status r /\ rawResponse env = r
  /\ effValidateStatus cfg dfl (resp_status r) = true.
Proof.
  destruct (effValidateStatus cfg dfl (resp_status r)) eqn:H.
  - rewrite (settle_accepted _ _ _ _ _ H).
    destruct (decodedBody r); cbn [result]; [discriminate|].
    intros [= <-]. now repeat split.
  - rewrite (settle_rejected _ _ _ _ _ H). discriminate.
Qed.


(** C1 (as amended).  For every call that returns, the [config] field of
    the envelope is the per-call config exactly as it was passed in ([{}]
    when the argument was omitted); the defaults and the built-in fallbacks
    that the call used are not merged into it. *)
Theorem envelope_config_is_given m url d conf w env :
  result (request m url d conf w) = inr env ->
  config env = givenConfig conf.
Proof.
  rewrite request_run. cbv zeta.
  destruct (fetch w) as [f|]; [|discriminate].
  destruct (resolveUrl _ _ url); [discriminate|].
  destruct (requestBody _ _); [discriminate|].
  destruct (fst (f _ _ (tstate w))); cbn [result]; [discriminate|].
  intros H. now apply settle_envelope in H.
Qed.

(** C9.  [get], [delete], [post] and [put] are [request] with the method
    fixed and, for [get] and [delete], no payload: as computations they are
    equal to the corresponding call of [request], so they behave alike in
    every world. *)
Theorem wrappers_forward url data config :
  get (TS := TS) url config = request GET url JUndefined config
  /\ delete (TS := TS) url config = request DELETE url JUndefined config
  /\ post (TS := TS) url data config = request POST url data config
  /\ put (TS := TS) url data config = request PUT url data config.
Proof. repeat split. Qed.


(** C8.  When the payload is falsy ([undefined], [null], [false], [0] or
    the empty string), whatever the method and whatever request transform
    is configured per call or in the defaults, the run never applies the
    request transform and any options it hands to the transport carry no
    body. *)
Theorem falsy_payload_no_body m url d conf w :
  truthy d = false ->
  (forall e, In e (trace (request m url d conf w)) ->
             isTransformRequest e = false)
  /\ (forall u i, In (u, i) (fetchCalls (trace (request m url d conf w))) ->
                  body i = None).
Proof.
  intros Hd. split.
  - intros e. rewrite request_run. cbv zeta.
    destruct (fetch w) as [f|]; [|intros []].
    destruct (resolveUrl _ _ url); [intros []|].
    assert (Hpre : forall c dd hs, transformRequestEvents c dd d hs = [])
      by (intros; unfold transformRequestEvents; now rewrite Hd).
    rewrite Hpre.
    assert (Htimer : forall c dd e0, In e0 (timerEvents c dd) ->
                                     isTransformRequest e0 = false).
    { intros c dd e0. unfold timerEvents.
      destruct (armedTimeout c dd); [intros [<-|[]]; reflexivity | intros []]. }
    destruct (requestBody _ _); cbn [trace]; [intros []|].
    destruct (fst (f _ _ (tstate w))); cbn [trace app];
      rewrite ?in_app_iff; cbn [In].
    + intros [H|[<-|[]]]; [eapply Htimer; eassumption | reflexivity].
    + intros [[H|[<-|[]]]|H];
        [eapply Htimer; eassumption | reflexivity
        | eapply settle_no_transformRequest; eassumption].
  - intros u i H. apply request_handed in H. revert H.
    unfold handedToTransport, outgoingPayload, requestBody. rewrite Hd.
    destruct (resolveUrl _ _ url); [discriminate|].
    cbv iota. rewrite Hd. intros [= _ <-]. reflexivity.
Qed.

End Envelope.

(* ================================================================== *)
(** ** Query parameters and headers *)

Section ParamsAndHeaders.

Implicit Types (cfg dfl : FetcherConfig).

Lemma spread_ownProps {V} (t : JSObject V) (o : option (JSObject V)) :
  spread t o = obj_assign t (ownProps o).
Proof. now destruct o. Qed.

Lemma urlParams_wf cfg dfl : wf_obj (urlParams cfg dfl).
Proof.
  unfold urlParams. apply wf_obj_spread, wf_obj_spread. constructor.
Qed.

Lemma urlParams_keys cfg dfl k :
  In k (keys (urlParams cfg dfl))
  <-> In k (keys (ownProps (params cfg))) \/ In k (keys (ownProps (params dfl))).
Proof.
  unfold urlParams. rewrite !spread_ownProps, !in_keys_assign. simpl. tauto.
Qed.

(** On a key that both mappings have, the per-call value wins. *)
Lemma urlParams_get cfg dfl k :
  wf_obj (ownProps (params cfg)) -> wf_obj (ownProps (params dfl)) ->
  obj_get k (urlParams cfg dfl)
  = match obj_get k (ownProps (params cfg)) with
    | Some v => Some v
    | None => obj_get k (ownProps (params dfl))
    end.
Proof.
  intros Hc Hd. unfold urlParams.
  rewrite !spread_ownProps, obj_get_assign, obj_get_assign by assumption.
  simpl. now destruct (obj_get k (ownProps (params dfl))).
Qed.

Lemma formSerialize_nonempty l : l <> [] -> formSerialize l <> "".
Proof.
  unfold formSerialize. destruct l as [|[k v] r]; [congruence|]. intros _.
  simpl map. cbn [fst snd]. destruct (map _ r); simpl;
    destruct (formEncode k); discriminate.
Qed.

Lemma fold_append_nonempty ps kv u :
  fold_left (fun u kv => searchParams_append (fst kv) (snd kv) u) (kv :: ps) u
  = withAppended (kv :: ps) u.
Proof.
  revert kv u. induction ps as [|kv' r IH]; intros [k v] u.
  - simpl. unfold searchParams_append, withAppended. cbn [fst snd].
    destruct (String.eqb_spec (formSerialize (url_list u ++ [(k, v)])) "")
      as [E|_]; [|reflexivity].
    exfalso. revert E. apply formSerialize_nonempty. now destruct (url_list u).
  - change (fold_left _ ((k, v) :: kv' :: r) u)
      with (fold_left (fun u kv => searchParams_append (fst kv) (snd kv) u)
              (kv' :: r) (searchParams_append k v u)).
    rewrite IH. unfold withAppended, searchParams_append.
    cbn [url_head url_list url_fragment]. rewrite <- !app_assoc. reflexivity.
Qed.

(** Appending the pairs one by one appends the whole list. *)
Lemma fold_append ps u :
  fold_left (fun u kv => searchParams_append (fst kv) (snd kv) u) ps u
  = withAppended ps u.
Proof. destruct ps; [reflexivity | apply fold_append_nonempty]. Qed.

Lemma queryString_segments ps :
  dropLast (queryString ps) = join "&" (map querySegment ps).
Proof.
  rewrite <- dropLast_segments. f_equal. unfold queryString.
  assert (H : forall acc,
             fold_left
               (fun a kv =>
                  (a ++ fst kv ++ "=" ++ encodeURIComponent (snd kv) ++ "&")%string)
               ps acc
             = fold_left (fun a kv => (a ++ querySegment kv ++ "&")%string)
                 ps acc).
  { induction ps as [|kv r IH]; intros acc; [reflexivity|].
    simpl. rewrite IH. f_equal. unfold querySegment.
    now rewrite !append_assoc. }
  apply H.
Qed.

(** Lines 57-71, in closed form. *)
Lemma appendParams_spec cfg dfl fu :
  appendParams cfg dfl fu
  = match params cfg, params dfl with
    | None, None => fu
    | _, _ =>
        match fu with
        | UrlStr s =>
            UrlStr (s ++ "?" ++ join "&" (map querySegment (urlParams cfg dfl)))
        | UrlObj u => UrlObj (withAppended (urlParams cfg dfl) u)
        end
    end.
Proof.
  unfold appendParams, or_else, truthyOpt, truthyRef.
  destruct (params cfg) as [cp|], (params dfl) as [dp|]; try reflexivity;
    destruct fu as [u|s]; rewrite ?fold_append, ?queryString_segments;
    reflexivity.
Qed.

End ParamsAndHeaders.

Section Headers.

Implicit Types (cfg dfl : FetcherConfig).

Lemma baseHeaders_wf cfg dfl :
  wf_obj (obj_set "Content-Type" (effContentType cfg dfl)
            (spread (spread [] (headers dfl)) (headers cfg))).
Proof. apply wf_obj_set, wf_obj_spread, wf_obj_spread. constructor. Qed.

Lemma requestHeaders_wf cfg dfl : wf_obj (requestHeaders cfg dfl).
Proof.
  unfold requestHeaders. pose proof (baseHeaders_wf cfg dfl) as H.
  destruct (token cfg) as [t|]; [|exact H].
  destruct (truthyStr t); [|exact H].
  apply wf_obj_set, wf_obj_assign. constructor.
Qed.

(** The Content-Type entry is the effective content type, whatever the
    default and per-call headers say. *)
Lemma requestHeaders_contentType cfg dfl :
  obj_get "Content-Type" (requestHeaders cfg dfl)
  = Some (effContentType cfg dfl).
Proof.
  unfold requestHeaders. pose proof (baseHeaders_wf cfg dfl) as H.
  assert (E : obj_get "Content-Type"
                (obj_set "Content-Type" (effContentType cfg dfl)
                   (spread (spread [] (headers dfl)) (headers cfg)))
              = Some (effContentType cfg dfl))
    by (rewrite obj_get_set; reflexivity).
  destruct (token cfg) as [t|]; [|exact E].
  destruct (truthyStr t); [|exact E].
  rewrite obj_get_set. simpl (_ =? _)%string.
  rewrite obj_get_assign by exact H. now rewrite E.
Qed.

Lemma requestHeaders_token cfg dfl t :
  token cfg = Some t -> truthyStr t = true ->
  obj_get "Authorization" (requestHeaders cfg dfl) = Some ("Bearer " ++ t)%string.
Proof.
  intros Ht Hne. unfold requestHeaders. rewrite Ht, Hne.
  rewrite obj_get_set. reflexivity.
Qed.

End Headers.

(* ================================================================== *)
(** ** Precedence, URL resolution and query parameters *)

Section Resolution.

Context {P : Platform}.
Variable TS : Type.
Implicit Types (w : World TS) (cfg dfl : FetcherConfig).

Lemma handed_inv m url d cfg dfl u i :
  handedToTransport m url d cfg dfl = Some (u, i) ->
  exists fu b,
    resolveUrl cfg dfl url = inr fu
    /\ requestBody (effContentType cfg dfl)
         (outgoingPayload cfg dfl d (requestHeaders cfg dfl)) = inr b
    /\ u = fetchUrl_toString (appendParams cfg dfl fu)
    /\ i = mkInit m (requestHeaders cfg dfl) b
             (mkSignal (armedTimeout cfg dfl)).
Proof.
  unfold handedToTransport.
  destruct (resolveUrl cfg dfl url) as [e|fu]; [discriminate|].
  destruct (requestBody _ _) as [e|b]; [discriminate|].
  intros [= <- <-]. exists fu, b. now repeat split.
Qed.

Lemma firstTruthy_or_default {A} (t : A -> bool) (a b : option A) (d : A) :
  or_default t (or_else t a b) d
  = match firstTruthy t a b with Some v => v | None => d end.
Proof.
  unfold or_default, or_else, firstTruthy, truthyOpt.
  destruct a as [x|]; [destruct (t x) eqn:Hx; [now rewrite Hx|]|];
    destruct b as [y|]; try reflexivity; now destruct (t y).
Qed.

Lemma armedTimeout_firstTruthy cfg dfl :
  armedTimeout cfg dfl = firstTruthy truthyNum (timeout cfg) (timeout dfl).
Proof.
  unfold armedTimeout, effTimeout, or_else, firstTruthy, truthyOpt.
  destruct (timeout cfg) as [x|]; [destruct (truthyNum x) eqn:Hx|];
    cbv iota beta; rewrite ?Hx; try reflexivity;
    destruct (timeout dfl) as [y|]; try reflexivity;
    destruct (truthyNum y); reflexivity.
Qed.

Lemma effValidateStatus_supplied cfg dfl :
  effValidateStatus cfg dfl
  = match spec_supplied (validateStatus cfg) (validateStatus dfl) with
    | Some v => v
    | None => defaultValidateStatus
    end.
Proof.
  unfold effValidateStatus, or_default, or_else, spec_supplied, truthyOpt,
    truthyRef.
  destruct (validateStatus cfg); [reflexivity|].
  now destruct (validateStatus dfl).
Qed.

Lemma outgoingPayload_supplied cfg dfl d hs :
  truthy d = true ->
  outgoingPayload cfg dfl d hs
  = match spec_supplied (transformRequest cfg) (transformRequest dfl) with
    | Some f => f d hs
    | None => d
    end.
Proof.
  intros Hd. unfold outgoingPayload, or_else, spec_supplied, truthyOpt,
    truthyRef. rewrite Hd.
  destruct (transformRequest cfg); [reflexivity|].
  now destruct (transformRequest dfl).
Qed.

Lemma transformedData_supplied cfg dfl v :
  transformedData cfg dfl v
  = match spec_supplied (transformResponse cfg) (transformResponse dfl) with
    | Some f => f v
    | None => v
    end.
Proof.
  unfold transformedData, or_else, spec_supplied, truthyOpt, truthyRef.
  destruct (transformResponse cfg); [reflexivity|].
  now destruct (transformResponse dfl).
Qed.

(** C3 (as amended).  For every URL string that is not absolute, with
    [base] the base URL in effect (the per-call one when it is a non-empty
    string, else the default one when it is a non-empty string):
    when there is one, the URL is resolved against it, the transport is
    handed the resolved URL (with the configured query parameters appended)
    and, if the resolution fails, the call fails with the error
    [Invalid URL: <url>] before anything else happens; when there is none
    (both absent or empty) the literal string is used (with the configured
    query parameters appended).  Without configured query parameters the
    target is the resolved URL, or the literal string, itself. *)
Theorem relative_url_resolution m url d conf w :
  let cfg := givenConfig conf in
  let dfl := defaults w in
  let base := effBaseUrl cfg dfl in
  isAbsolute url = false ->
  base = match firstTruthy truthyStr (baseUrl cfg) (baseUrl dfl) with
         | Some b => b
         | None => ""
         end
  /\ (base <> "" -> forall o, URL_new url (Some base) = inr o ->
      resolveUrl cfg dfl url = inr (UrlObj o)
      /\ forall u i, In (u, i) (fetchCalls (trace (request m url d conf w))) ->
                     u = fetchUrl_toString (appendParams cfg dfl (UrlObj o)))
  /\ (base <> "" -> forall e, URL_new url (Some base) = inl e ->
      resolveUrl cfg dfl url = inl (Error ("Invalid URL: " ++ url))
      /\ (fetch w <> None ->
          request m url d conf w
          = mkOutcome (inl (Error ("Invalid URL: " ++ url))) w []))
  /\ (base = "" ->
      resolveUrl cfg dfl url = inr (UrlStr url)
      /\ forall u i, In (u, i) (fetchCalls (trace (request m url d conf w))) ->
                     u = fetchUrl_toString (appendParams cfg dfl (UrlStr url)))
  /\ (params cfg = None -> params dfl = None ->
      forall fu, fetchUrl_toString (appendParams cfg dfl fu)
                 = fetchUrl_toString fu).
Proof.
  intros cfg dfl base Habs. subst base.
  assert (Hres : forall fu, resolveUrl cfg dfl url = inr fu ->
            forall u i,
              In (u, i) (fetchCalls (trace (request m url d conf w))) ->
              u = fetchUrl_toString (appendParams cfg dfl fu)).
  { intros fu Hfu u i Hin. apply request_handed, handed_inv in Hin.
    destruct Hin as (fu' & b & Hfu' & _ & -> & _).
    subst cfg dfl. congruence. }
  assert (Htr : forall b, truthyStr b = true <-> b <> "").
  { intros b. unfold truthyStr.
    destruct (String.eqb_spec b ""); simpl; split; congruence. }
  split; [apply firstTruthy_or_default|].
  split; [|split; [|split]].
  - intros Hb o Ho.
    assert (E : resolveUrl cfg dfl url = inr (UrlObj o)).
    { unfold resolveUrl. rewrite Habs.
      apply Htr in Hb. now rewrite Hb, Ho. }
    split; [exact E | now apply Hres].
  - intros Hb e He.
    assert (E : resolveUrl cfg dfl url = inl (Error ("Invalid URL: " ++ url))).
    { unfold resolveUrl. rewrite Habs.
      apply Htr in Hb. now rewrite Hb, He. }
    split; [exact E|]. intros Hf. rewrite request_run. cbv zeta.
    subst cfg dfl. rewrite E. now destruct (fetch w).
  - intros Hb.
    assert (E : resolveUrl cfg dfl url = inr (UrlStr url)).
    { unfold resolveUrl. rewrite Habs. now rewrite Hb. }
    split; [exact E | now apply Hres].
  - intros Hc Hd fu. rewrite appendParams_spec, Hc, Hd. reflexivity.
Qed.

(** C4 (as amended).  For every pair of query-parameter mappings supplied
    via the defaults and the per-call config (at least one of them), the
    merged mapping has every key of the union of the two exactly once,
    with the per-call value on a key that both have.  When the URL is a
    plain string the transport is handed [url?k1=v1&...&kn=vn] with one
    segment per merged key, the key written as it is and the value through
    [encodeURIComponent]; when it is a URL object each merged pair is
    appended once, after the parameters the URL already had, which are kept
    and not deduplicated, and the query is the form serialization of that
    list.  Both encodings are percent-encodings that decode to the value
    (the form serialization writes a space as [+]). *)
Theorem merged_query_appended m url d conf w u i :
  let cfg := givenConfig conf in
  let dfl := defaults w in
  let ps := urlParams cfg dfl in
  wf_obj (ownProps (params cfg)) -> wf_obj (ownProps (params dfl)) ->
  params cfg <> None \/ params dfl <> None ->
  In (u, i) (fetchCalls (trace (request m url d conf w))) ->
  NoDup (keys ps)
  /\ (forall k, In k (keys ps)
                <-> In k (keys (ownProps (params cfg)))
                    \/ In k (keys (ownProps (params dfl))))
  /\ (forall k, obj_get k ps
                = match obj_get k (ownProps (params cfg)) with
                  | Some v => Some v
                  | None => obj_get k (ownProps (params dfl))
                  end)
  /\ match resolveUrl cfg dfl url with
     | inr (UrlStr s) =>
         u = (s ++ "?" ++ join "&" (map querySegment ps))%string
     | inr (UrlObj o) =>
         u = url_toString (withAppended ps o)
         /\ url_list (withAppended ps o) = url_list o ++ ps
         /\ (ps <> [] ->
             url_query (withAppended ps o)
             = Some (formSerialize (url_list o ++ ps)))
     | inl _ => False
     end
  /\ (forall v,
        encodedOver uriUnreserved false (encodeURIComponent v) = true
        /\ pctDecode (encodeURIComponent v) = v
        /\ encodedOver formSafe true (formEncode v) = true
        /\ formDecode (formEncode v) = v).
Proof.
  intros cfg dfl ps Hc Hd Hsome Hin.
  apply request_handed, handed_inv in Hin.
  destruct Hin as (fu & b & Hfu & _ & -> & _).
  change (resolveUrl cfg dfl url = inr fu) in Hfu.
  change (appendParams (givenConfig conf) (defaults w) fu)
    with (appendParams cfg dfl fu).
  split; [apply urlParams_wf|].
  split; [apply urlParams_keys|].
  split; [intros k; now apply urlParams_get|].
  split.
  - rewrite Hfu, appendParams_spec. fold ps.
    destruct (params cfg) as [cp|] eqn:Ec, (params dfl) as [dp|] eqn:Ed;
      try (destruct Hsome; congruence);
      destruct fu as [o|s]; cbn [fetchUrl_toString];
      try reflexivity;
      (split; [reflexivity|]; split;
       [destruct ps; [now rewrite app_nil_r | reflexivity]
       |intros Hne; destruct ps; [congruence | reflexivity]]).
  - intros v. destruct (encodeURIComponent_encoded v), (formEncode_encoded v).
    now repeat split.
Qed.

End Resolution.

(* ================================================================== *)
(** ** Status validation, the body and the bearer token *)

Section Validation.

Context {P : Platform}.
Variable TS : Type.
Implicit Types (w : World TS) (cfg dfl : FetcherConfig).

Lemma prelude_events cfg dfl d hs e :
  In e (transformRequestEvents cfg dfl d hs) \/ In e (timerEvents cfg dfl) ->
  isPrelude e = true.
Proof.
  unfold transformRequestEvents, timerEvents.
  intros [H|H].
  - destruct (truthy d); [destruct (or_else _ _ _)|]; simpl in H;
      try contradiction; destruct H as [<-|[]]; reflexivity.
  - destruct (armedTimeout cfg dfl); simpl in H; try contradiction.
    destruct H as [<-|[]]. reflexivity.
Qed.

(** When the transport has answered with a response, the rest of the run
    is [settle] on that response; nothing before it reads a body. *)
Lemma request_answered m url d conf w u i r :
  In (EvFetch u i (inr r)) (trace (request m url d conf w)) ->
  exists evs h w',
    result (request m url d conf w)
    = result (settle (givenConfig conf) (defaults w) h r w')
    /\ trace (request m url d conf w)
       = evs ++ trace (settle (givenConfig conf) (defaults w) h r w')
    /\ (forall e, In e evs -> isBodyRead e = false).
Proof.
  rewrite request_run. cbv zeta.
  destruct (fetch w) as [f|]; [|intros []].
  destruct (resolveUrl _ _ url) as [e|fu]; [intros []|].
  destruct (requestBody _ _) as [e|b]; cbn [trace].
  - intros H.
    assert (Hp : isPrelude (EvFetch u i (inr r)) = true)
      by (eapply prelude_events; left; exact H).
    discriminate.
  - set (target := fetchUrl_toString _). set (init := mkInit _ _ _ _).
    destruct (fst (f target init (tstate w))) as [e|a] eqn:Ea;
      cbn [trace result answerView]; rewrite ?app_assoc, !in_app_iff;
      cbn [In].
    + intros [H|[[=]|[]]].
      apply prelude_events in H. discriminate.
    + assert (Hpre : forall e,
                In e ((transformRequestEvents (givenConfig conf) (defaults w) d
                         (requestHeaders (givenConfig conf) (defaults w))
                       ++ timerEvents (givenConfig conf) (defaults w))
                      ++ [EvFetch target init (inr (viewOf w a))]) ->
                isBodyRead e = false).
      { intros e [H|[<-|[]]]%in_app_or; [|reflexivity].
        apply in_app_or, prelude_events in H. now destruct e. }
      intros [[H|[[= _ _ <-]|[]]]|H].
      * apply prelude_events in H. discriminate.
      * eexists _, _, _. split; [reflexivity|]. split; [reflexivity|].
        exact Hpre.
      * pose proof (settle_events (givenConfig conf) (defaults w) (fst a)
                      (viewOf w a)
                      (mkWorld (defaults w) (Some f)
                         (snd (f target init (tstate w))) (bodyUsed w))) as Hs.
        rewrite Forall_forall in Hs. apply Hs in H. discriminate.
Qed.



(** C6 (as amended).  For every truthy payload passed to the dispatcher,
    with the outgoing payload being the payload itself when no request
    transform is in effect and the output of the transform (per-call, else
    default) otherwise: when the outgoing payload is truthy, the body
    handed to the transport is its URL-encoded form serialization if the
    effective content type is [application/x-www-form-urlencoded] and its
    JSON text otherwise; when the outgoing payload is falsy, no body is
    handed. *)
Theorem body_serialization m url d conf w u i :
  let cfg := givenConfig conf in
  let dfl := defaults w in
  let outgoing :=
    match spec_supplied (transformRequest cfg) (transformRequest dfl) with
    | Some f => f d (initHeaders i)
    | None => d
    end in
  truthy d = true ->
  In (u, i) (fetchCalls (trace (request m url d conf w))) ->
  match body i with
  | Some s =>
      truthy outgoing = true
      /\ if (effContentType cfg dfl =? "application/x-www-form-urlencoded")%string
         then URLSearchParams_toString outgoing = inr s
         else s = JSON_stringify outgoing
  | None => truthy outgoing = false
  end.
Proof.
  intros cfg dfl outgoing Hd Hin. subst outgoing cfg dfl.
  apply request_handed, handed_inv in Hin.
  destruct Hin as (fu & b & _ & Hb & _ & ->). cbn [body initHeaders].
  rewrite (outgoingPayload_supplied _ _ _ _ Hd) in Hb.
  revert Hb. unfold requestBody.
  generalize (match
                 spec_supplied (transformRequest (givenConfig conf))
                   (transformRequest (defaults w))
               with
               | Some f => f d (requestHeaders (givenConfig conf) (defaults w))
               | None => d
               end) as out.
  intros out. destruct (truthy out) eqn:Ho.
  - destruct (_ =? _)%string.
    + destruct (URLSearchParams_toString _) as [e|s] eqn:Es; [discriminate|].
      intros [= <-]. now split.
    + intros [= <-]. now split.
  - intros [= <-]. reflexivity.
Qed.

Lemma wf_obj_In_get {V} (o : JSObject V) k v :
  wf_obj o -> In (k, v) o -> obj_get k o = Some v.
Proof.
  unfold wf_obj. induction o as [|[k1 v1] r IH]; simpl; [tauto|].
  intros Hnd [[= -> ->]|Hin].
  - now rewrite String.eqb_refl.
  - inversion Hnd as [|? ? Hk1 Hr]; subst.
    destruct (String.eqb_spec k1 k) as [->|_]; [|auto].
    exfalso. apply Hk1. apply (in_map fst) in Hin. exact Hin.
Qed.

(** C7 (as amended).  For every call whose per-call config has a non-empty
    token, the header mapping handed to the transport has the entry
    [Authorization: Bearer <token>], and it is the only entry under that
    key, whatever [Authorization] header the default or the per-call
    headers supply. *)
Theorem bearer_token_header m url d conf w u i t :
  token (givenConfig conf) = Some t -> t <> "" ->
  In (u, i) (fetchCalls (trace (request m url d conf w))) ->
  obj_get "Authorization" (initHeaders i) = Some ("Bearer " ++ t)%string
  /\ In ("Authorization", ("Bearer " ++ t)%string) (initHeaders i)
  /\ (forall v, In ("Authorization", v) (initHeaders i) ->
                v = ("Bearer " ++ t)%string)
  /\ NoDup (keys (initHeaders i)).
Proof.
  intros Ht Hne Hin. apply request_handed, handed_inv in Hin.
  destruct Hin as (fu & b & _ & _ & _ & ->). cbn [initHeaders].
  assert (Htr : truthyStr t = true).
  { unfold truthyStr. now destruct (String.eqb_spec t ""). }
  pose proof (requestHeaders_token _ (defaults w) Ht Htr) as Hget.
  pose proof (requestHeaders_wf (givenConfig conf) (defaults w)) as Hwf.
  split; [exact Hget|]. split; [now apply obj_get_Some_In|].
  split; [|exact Hwf].
  intros v Hv. apply (wf_obj_In_get _ _ Hwf) in Hv. congruence.
Qed.

End Validation.

(* ================================================================== *)
(** ** Which configured value a run uses *)

Section Precedence.

Context {P : Platform}.
Variable TS : Type.
Implicit Types (w : World TS) (cfg dfl : FetcherConfig).

Lemma filter_transform_timer cfg dfl :
  filter isTransformRequest (timerEvents cfg dfl) = [].
Proof. unfold timerEvents. now destruct (armedTimeout cfg dfl). Qed.

Lemma filter_transform_settle cfg dfl h r w :
  filter isTransformRequest (trace (settle cfg dfl h r w)) = [].
Proof.
  pose proof (settle_events cfg dfl h r w) as Hs.
  induction Hs as [|ev l Hev _ IH]; [reflexivity|].
  simpl. rewrite IH. now destruct ev.
Qed.

Lemma filter_transform_pre cfg dfl d hs :
  filter isTransformRequest (transformRequestEvents cfg dfl d hs)
  = transformRequestEvents cfg dfl d hs.
Proof.
  unfold transformRequestEvents.
  destruct (truthy d); [destruct (or_else _ _ _)|]; reflexivity.
Qed.

(** The request-transform events of a run. *)
Lemma request_transform_events m url d conf w :
  filter isTransformRequest (trace (request m url d conf w))
  = match fetch w, resolveUrl (givenConfig conf) (defaults w) url with
    | Some _, inr _ =>
        transformRequestEvents (givenConfig conf) (defaults w) d
          (requestHeaders (givenConfig conf) (defaults w))
    | _, _ => []
    end.
Proof.
  rewrite request_run. cbv zeta.
  destruct (fetch w) as [f|]; [|reflexivity].
  destruct (resolveUrl _ _ url) as [e|fu]; [reflexivity|].
  destruct (requestBody _ _) as [e|b]; cbn [trace];
    [apply filter_transform_pre|].
  destruct (fst (f _ _ (tstate w))); cbn [trace answerView];
    rewrite !filter_app, filter_transform_pre, filter_transform_timer,
      ?filter_transform_settle; cbn [filter isTransformRequest];
    now rewrite ?app_nil_r.
Qed.

(** The timer events of a run. *)
Lemma request_timer_events m url d conf w :
  filter isTimer (trace (request m url d conf w))
  = match handedToTransport m url d (givenConfig conf) (defaults w), fetch w with
    | Some _, Some _ => timerEvents (givenConfig conf) (defaults w)
    | _, _ => []
    end.
Proof.
  assert (Hpre : forall dd hs,
             filter isTimer
               (transformRequestEvents (givenConfig conf) (defaults w) dd hs)
             = []).
  { intros. unfold transformRequestEvents.
    destruct (truthy dd); [destruct (or_else _ _ _)|]; reflexivity. }
  assert (Htim : filter isTimer (timerEvents (givenConfig conf) (defaults w))
                 = timerEvents (givenConfig conf) (defaults w)).
  { unfold timerEvents. now destruct (armedTimeout _ _). }
  assert (Hset : forall h0 r0 w0,
             filter isTimer
               (trace (settle (givenConfig conf) (defaults w) h0 r0 w0))
             = []).
  { intros h0 r0 w0.
    pose proof (settle_events (givenConfig conf) (defaults w) h0 r0 w0)
      as Hs.
    induction Hs as [|ev l Hev _ IH]; [reflexivity|].
    simpl. rewrite IH. now destruct ev. }
  unfold handedToTransport. rewrite request_run. cbv zeta.
  destruct (fetch w) as [f|].
  2:{ destruct (resolveUrl _ _ url); [reflexivity|].
      now destruct (requestBody _ _). }
  destruct (resolveUrl _ _ url) as [e|fu]; [reflexivity|].
  destruct (requestBody _ _) as [e|b]; cbn [trace]; [apply Hpre|].
  destruct (fst (f _ _ (tstate w))); cbn [trace answerView];
    rewrite ?filter_app, Hpre, Htim, ?Hset; cbn [filter isTimer app];
    now rewrite ?app_nil_r.
Qed.

Lemma firstTruthy_truthy {A} (t : A -> bool) (a b : option A) v :
  firstTruthy t a b = Some v -> t v = true.
Proof.
  unfold firstTruthy, truthyOpt.
  destruct a as [x|]; [destruct (t x) eqn:Hx; [now intros [= <-]|]|];
    (destruct b as [y|]; [destruct (t y) eqn:Hy|]);
    try discriminate; now intros [= <-].
Qed.

(** Once the transport has answered, the effective validator decides
    whether the body is read. *)
Lemma answered_validated m url d conf w u i r :
  In (EvFetch u i (inr r)) (trace (request m url d conf w)) ->
  if effValidateStatus (givenConfig conf) (defaults w) (resp_status r)
  then In (readEvent r) (trace (request m url d conf w))
  else result (request m url d conf w)
       = inl (Error ("Request failed with status code "
                     ++ string_of_Z (resp_status r)))
       /\ forall e, In e (trace (request m url d conf w)) ->
                    isBodyRead e = false.
Proof.
  intros Hin. apply request_answered in Hin.
  destruct Hin as (evs & h & w' & Hr & Ht & Hev). rewrite Hr, Ht.
  destruct (effValidateStatus _ _ (resp_status r)) eqn:Hv.
  - rewrite (settle_accepted _ _ _ _ _ Hv). apply in_or_app. right.
    destruct (decodedBody r); cbn [trace]; simpl; tauto.
  - rewrite (settle_rejected _ _ _ _ _ Hv). cbn [result trace].
    split; [reflexivity|].
    intros e [H|[<-|[]]]%in_app_or; [now apply Hev | reflexivity].
Qed.

(** The [data] of a returned envelope is the decoded body of its response
    after the effective response transform. *)
Lemma returned_data m url d conf w env :
  result (request m url d conf w) = inr env ->
  exists v,
    decodedBody (rawResponse env) = inr v
    /\ data env = transformedData (givenConfig conf) (defaults w) v.
Proof.
  rewrite request_run. cbv zeta.
  destruct (fetch w) as [f|]; [|discriminate].
  destruct (resolveUrl _ _ url); [discriminate|].
  destruct (requestBody _ _); [discriminate|].
  destruct (fst (f _ _ (tstate w))) as [e|a]; cbn [result]; [discriminate|].
  set (r := viewOf w a).
  destruct (effValidateStatus (givenConfig conf) (defaults w) (resp_status r))
    eqn:Hv.
  - rewrite (settle_accepted _ _ _ _ _ Hv).
    destruct (decodedBody r) as [e|v] eqn:Hdec; cbn [result]; [discriminate|].
    intros [= <-]. exists v. now split.
  - rewrite (settle_rejected _ _ _ _ _ Hv). discriminate.
Qed.

(** C2 (as amended).  For every per-call config and defaults object and
    every run that reaches the transport, the value the run uses for a
    field is the per-call value when it is supplied and truthy, else the
    default value when it is supplied and truthy, else the built-in
    fallback.  [baseUrl]: a URL that is not absolute is resolved against
    the base so chosen, and handed on as it is when there is none (an
    empty string is none).  [contentType]: the Content-Type header handed
    to the transport is the one so chosen, [application/json] when there
    is none.  [timeout]: the timer armed and the signal handed to the
    transport carry the delay so chosen, and no timer is armed when there
    is none ([0] is none).  A function is always truthy, so for the three
    callbacks "supplied" is enough.  [validateStatus]: the validator so
    chosen, the 200-299 range when there is none, decides on every
    response the transport answers with whether the body is read or the
    call fails with the status error.  [transformRequest]: a truthy
    payload is passed once through the transform so chosen, if any, and
    the body handed to the transport is the serialization of its output.
    [transformResponse]: the [data] of a returned envelope is the decoded
    body passed through the transform so chosen, if any.  The [params]
    mappings are not chosen between but merged key by key, the per-call
    value winning, and the merged pairs are what the URL handed to the
    transport is given. *)
Theorem precedence_by_truthiness m url d conf w u i :
  let cfg := givenConfig conf in
  let dfl := defaults w in
  In (u, i) (fetchCalls (trace (request m url d conf w))) ->
  (isAbsolute url = false ->
   match firstTruthy truthyStr (baseUrl cfg) (baseUrl dfl) with
   | Some b =>
       exists o, URL_new url (Some b) = inr o
                 /\ u = fetchUrl_toString (appendParams cfg dfl (UrlObj o))
   | None => u = fetchUrl_toString (appendParams cfg dfl (UrlStr url))
   end)
  /\ obj_get "Content-Type" (initHeaders i)
     = Some match firstTruthy truthyStr (contentType cfg) (contentType dfl) with
            | Some c => c
            | None => "application/json"
            end
  /\ abortAfter (signal i) = firstTruthy truthyNum (timeout cfg) (timeout dfl)
  /\ filter isTimer (trace (request m url d conf w))
     = match firstTruthy truthyNum (timeout cfg) (timeout dfl) with
       | Some t => [EvSetTimeout t]
       | None => []
       end
  /\ (forall u' i' r,
        In (EvFetch u' i' (inr r)) (trace (request m url d conf w)) ->
        if match spec_supplied (validateStatus cfg) (validateStatus dfl) with
           | Some v => v
           | None => defaultValidateStatus
           end (resp_status r)
        then In (readEvent r) (trace (request m url d conf w))
        else result (request m url d conf w)
             = inl (Error ("Request failed with status code "
                           ++ string_of_Z (resp_status r)))
             /\ forall e, In e (trace (request m url d conf w)) ->
                          isBodyRead e = false)
  /\ (truthy d = true ->
      filter isTransformRequest (trace (request m url d conf w))
      = match spec_supplied (transformRequest cfg) (transformRequest dfl) with
        | Some _ => [EvTransformRequest d (initHeaders i)]
        | None => []
        end
      /\ requestBody
           match firstTruthy truthyStr (contentType cfg) (contentType dfl) with
           | Some c => c
           | None => "application/json"
           end
           match spec_supplied (transformRequest cfg) (transformRequest dfl) with
           | Some f => f d (initHeaders i)
           | None => d
           end
         = inr (body i))
  /\ (forall env,
        result (request m url d conf w) = inr env ->
        exists v,
          decodedBody (rawResponse env) = inr v
          /\ data env
             = match spec_supplied (transformResponse cfg) (transformResponse dfl) with
               | Some f => f v
               | None => v
               end)
  /\ (wf_obj (ownProps (params cfg)) -> wf_obj (ownProps (params dfl)) ->
      exists fu ps,
        resolveUrl cfg dfl url = inr fu
        /\ NoDup (keys ps)
        /\ (forall k,
              obj_get k ps
              = match obj_get k (ownProps (params cfg)) with
                | Some v => Some v
                | None => obj_get k (ownProps (params dfl))
                end)
        /\ u = match params cfg, params dfl with
               | None, None => fetchUrl_toString fu
               | _, _ =>
                   match fu with
                   | UrlStr s =>
                       (s ++ "?" ++ join "&" (map querySegment ps))%string
                   | UrlObj o => url_toString (withAppended ps o)
                   end
               end).
Proof.
  intros cfg dfl Hin.
  pose proof (request_timer_events m url d conf w) as Htimer.
  pose proof (request_transform_events m url d conf w) as Htrans.
  pose proof Hin as Hcall. rewrite request_fetchCalls in Hcall.
  destruct (fetch w) as [f|]; [|contradiction].
  pose proof Hin as Hh. apply request_handed in Hh.
  fold cfg dfl in Htimer, Htrans, Hh. rewrite Hh in Htimer.
  apply handed_inv in Hh. destruct Hh as (fu & b & Hfu & Hb & Hu & Hi).
  rewrite Hfu in Htrans.
  assert (Ect : effContentType cfg dfl
                = match
                    firstTruthy truthyStr (contentType cfg) (contentType dfl)
                  with
                  | Some c => c
                  | None => "application/json"
                  end) by apply firstTruthy_or_default.
  assert (Eh : initHeaders i = requestHeaders cfg dfl) by now rewrite Hi.
  assert (Eb : body i = b) by now rewrite Hi.
  assert (Es : abortAfter (signal i) = armedTimeout cfg dfl) by now rewrite Hi.
  split; [|split; [|split; [|split; [|split; [|split; [|split]]]]]].
  - intros Habs. revert Hfu. unfold resolveUrl. rewrite Habs.
    unfold effBaseUrl. rewrite firstTruthy_or_default.
    destruct (firstTruthy truthyStr (baseUrl cfg) (baseUrl dfl)) as [bs|] eqn:Ef.
    + rewrite (firstTruthy_truthy _ _ _ Ef).
      destruct (URL_new url (Some bs)) as [e|o]; [discriminate|].
      intros [= <-]. now exists o.
    + cbn [truthyStr String.eqb negb]. now intros [= <-].
  - rewrite Eh, requestHeaders_contentType. now f_equal.
  - rewrite Es. apply armedTimeout_firstTruthy.
  - rewrite Htimer. unfold timerEvents.
    now rewrite armedTimeout_firstTruthy.
  - intros u' i' r Hr. rewrite <- effValidateStatus_supplied.
    now apply (answered_validated m url d conf w u' i').
  - intros Hd. split.
    + rewrite Htrans, Eh. unfold transformRequestEvents, or_else, truthyOpt,
        truthyRef, spec_supplied. rewrite Hd.
      destruct (transformRequest cfg); [reflexivity|].
      now destruct (transformRequest dfl).
    + rewrite <- Ect, Eh, Eb, <- (outgoingPayload_supplied _ _ _ _ Hd).
      exact Hb.
  - intros env Henv. destruct (returned_data _ _ _ _ _ Henv) as (v & Hv & Hdata).
    exists v. split; [exact Hv|]. rewrite Hdata.
    apply transformedData_supplied.
  - intros Hc Hd. exists fu, (urlParams cfg dfl).
    split; [exact Hfu|]. split; [apply urlParams_wf|].
    split; [intros k; now apply urlParams_get|].
    rewrite Hu, appendParams_spec.
    destruct (params cfg), (params dfl), fu; reflexivity.
Qed.

End Precedence.

(* ================================================================== *)
(** ** Concrete runs *)

Module Runs.

Import Example.

(** The platform functions on a few inputs. *)
Example isAbsolute_samples :
  isAbsolute "https://api.example.com/data" = true
  /\ isAbsolute "ftp://host/file" = true
  /\ isAbsolute "HTTP://api.example.com" = false
  /\ isAbsolute "/users" = false
  /\ isAbsolute "//host/path" = false.
Proof. repeat split. Qed.

Example encoding_samples :
  encodeURIComponent "a b&c=d/e" = "a%20b%26c%3Dd%2Fe"
  /\ encodeURIComponent "it's(ok)!" = "it's(ok)!"
  /\ formEncode "a b&c" = "a+b%26c"
  /\ pctDecode "a%20b%26c%3Dd%2Fe" = "a b&c=d/e"
  /\ string_of_Z 404 = "404"
  /\ string_of_Z (-1) = "-1".
Proof. repeat split. Qed.

Example own_property_order :
  obj_assign [] [("b", 1); ("10", 2); ("a", 3); ("2", 4); ("b", 5)]
  = [("2", 4); ("10", 2); ("b", 5); ("a", 3)].
Proof. reflexivity. Qed.

(** C1 as stated fails.  A GET with the defaults [{ timeout: 5000 }] and
    no per-call config returns an envelope whose [config] is [{}]: it is
    not the merge of the per-call config over the defaults over the
    fallbacks, and it does not show the timeout of 5000 ms that the call
    armed. *)
Lemma envelope_config_not_effective :
  let w := worldWith (timeoutDefaults 5000) (inr ok200) in
  let run := get "https://api.example.com/data" None w in
  result run = inr (okEnvelope emptyConfig)
  /\ In (EvSetTimeout 5000) (trace run)
  /\ timeout (config (okEnvelope emptyConfig)) = None
  /\ timeout (spec_effective_config (givenConfig None) (defaults w)) = Some 5000
  /\ config (okEnvelope emptyConfig)
     <> spec_effective_config (givenConfig None) (defaults w).
Proof.
  cbv zeta. split; [reflexivity|]. split; [left; reflexivity|].
  split; [reflexivity|]. split; [reflexivity|].
  intros H. apply (f_equal timeout) in H. discriminate.
Qed.

(** C1 (as amended) on a GET with a per-call config. *)
Lemma envelope_config_is_given_witness :
  let w := worldWith (timeoutDefaults 5000) (inr ok200) in
  let run := get "https://api.example.com/data" (Some formConfig) w in
  result run = inr (okEnvelope formConfig)
  /\ config (okEnvelope formConfig) = givenConfig (Some formConfig).
Proof.
  cbv zeta.
  assert (H : result (get "https://api.example.com/data" (Some formConfig)
                        (worldWith (timeoutDefaults 5000) (inr ok200)))
              = inr (okEnvelope formConfig)) by reflexivity.
  split; [exact H|].
  exact (@envelope_config_is_given examplePlatform unit GET
           "https://api.example.com/data" JUndefined (Some formConfig)
           (worldWith (timeoutDefaults 5000) (inr ok200))
           (okEnvelope formConfig) H).
Defined.

(** C2 as stated fails.  With the per-call config
    [{ baseUrl: '', timeout: 0 }] over the defaults
    [{ baseUrl: apiBase, timeout: 5000 }], the dispatcher uses the default
    base URL and arms the default timeout, not the supplied per-call
    values; and a per-call [params] does not replace the default one but is
    merged with it. *)
Lemma falsy_per_call_values_give_way :
  let w := worldWith apiDefaults (inr ok200) in
  let run := get "/users" (Some falsyConfig) w in
  spec_supplied (baseUrl falsyConfig) (baseUrl apiDefaults) = Some ""
  /\ spec_supplied (timeout falsyConfig) (timeout apiDefaults) = Some 0
  /\ fetchCalls (trace run)
     = [("https://api.example.com/users",
         {| method := GET;
            initHeaders := [("Content-Type", "application/json")];
            body := None;
            signal := mkSignal (Some 5000) |})]
  /\ In (EvSetTimeout 5000) (trace run)
  /\ ~ In (EvSetTimeout 0) (trace run)
  /\ armedTimeout falsyConfig apiDefaults
     <> spec_supplied (timeout falsyConfig) (timeout apiDefaults)
  /\ Some (effBaseUrl falsyConfig apiDefaults)
     <> spec_supplied (baseUrl falsyConfig) (baseUrl apiDefaults)
  /\ spec_supplied (params (paramsConfig [("a", "1")]))
       (params (paramsConfig [("b", "2")])) = Some [("a", "1")]
  /\ urlParams (paramsConfig [("a", "1")]) (paramsConfig [("b", "2")])
     = [("b", "2"); ("a", "1")].
Proof.
  cbv zeta. repeat split; try reflexivity; try discriminate.
  - left. reflexivity.
  - vm_compute. intros [H|[H|[H|[H|[]]]]]; discriminate.
Qed.

(** C2 (as amended) on the same call: the timer armed is the default
    one. *)
Lemma precedence_by_truthiness_witness :
  let w := worldWith apiDefaults (inr ok200) in
  let i := {| method := GET;
              initHeaders := [("Content-Type", "application/json")];
              body := None;
              signal := mkSignal (Some 5000) |} in
  In ("https://api.example.com/users", i)
     (fetchCalls (trace (request GET "/users" JUndefined (Some falsyConfig) w)))
  /\ abortAfter (signal i)
     = firstTruthy truthyNum (timeout falsyConfig) (timeout apiDefaults).
Proof.
  cbv zeta.
  assert (H : In ("https://api.example.com/users",
                  {| method := GET;
                     initHeaders := [("Content-Type", "application/json")];
                     body := None;
                     signal := mkSignal (Some 5000) |})
                (fetchCalls
                   (trace (request GET "/users" JUndefined (Some falsyConfig)
                             (worldWith apiDefaults (inr ok200))))))
    by (left; reflexivity).
  split; [exact H|].
  exact (proj1 (proj2 (proj2
           (@precedence_by_truthiness examplePlatform unit GET "/users"
              JUndefined (Some falsyConfig)
              (worldWith apiDefaults (inr ok200)) _ _ H)))).
Defined.

(** C3 as stated fails.  With the per-call config [{ baseUrl: '' }] and
    no default base URL, a base URL is configured and resolving [/users]
    against it fails, yet the call does not fail with [Invalid URL]: the
    literal string goes to the transport and the call returns. *)
Lemma empty_base_url_is_not_resolved :
  let w := worldWith emptyConfig (inr ok200) in
  let run := get "/users" (Some emptyBaseConfig) w in
  isAbsolute "/users" = false
  /\ baseUrl emptyBaseConfig = Some ""
  /\ URL_new "/users" (Some "") = inl invalidUrl
  /\ result run = inr (okEnvelope emptyBaseConfig)
  /\ fetchCalls (trace run) = [("/users", plainInit GET)]
  /\ result run <> inl (Error ("Invalid URL: " ++ "/users")).
Proof. cbv zeta. repeat split. discriminate. Qed.

(** C3 (as amended) on [/users] against the default base URL. *)
Lemma relative_url_resolution_witness :
  let w := worldWith apiDefaults (inr ok200) in
  let o := mkURL "https://api.example.com/users" None [] None in
  let i := {| method := GET;
              initHeaders := [("Content-Type", "application/json")];
              body := None;
              signal := mkSignal (Some 5000) |} in
  isAbsolute "/users" = false
  /\ In ("https://api.example.com/users", i)
       (fetchCalls (trace (request GET "/users" JUndefined None w)))
  /\ resolveUrl (givenConfig None) (defaults w) "/users" = inr (UrlObj o)
  /\ "https://api.example.com/users"
     = fetchUrl_toString
         (appendParams (givenConfig None) (defaults w) (UrlObj o)).
Proof.
  cbv zeta.
  assert (Habs : isAbsolute "/users" = false) by reflexivity.
  assert (Hin : In ("https://api.example.com/users",
                    {| method := GET;
                       initHeaders := [("Content-Type", "application/json")];
                       body := None;
                       signal := mkSignal (Some 5000) |})
                  (fetchCalls
                     (trace (request GET "/users" JUndefined None
                               (worldWith apiDefaults (inr ok200))))))
    by (left; reflexivity).
  split; [exact Habs|]. split; [exact Hin|].
  destruct (@relative_url_resolution examplePlatform unit GET "/users"
              JUndefined None (worldWith apiDefaults (inr ok200)) Habs)
    as (_ & Hobj & _).
  assert (Hb : effBaseUrl (givenConfig None)
                 (defaults (worldWith apiDefaults (inr ok200))) <> "")
    by discriminate.
  destruct (Hobj Hb (mkURL "https://api.example.com/users" None [] None)
              eq_refl) as [Hres Hcalls].
  split; [exact Hres | exact (Hcalls _ _ Hin)].
Defined.

(** C4 as stated fails.  A URL that already has the query [q=1], called
    with the per-call [params] [{ q: '2' }]: the only key of the union of
    the two mappings is [q], and it appears twice in the final query
    string. *)
Lemma existing_query_key_appears_twice :
  let w := worldWith emptyConfig (inr ok200) in
  let cfg := paramsConfig [("q", "2")] in
  let run := get "https://api.example.com/search?q=1" (Some cfg) w in
  keys (urlParams cfg (defaults w)) = ["q"]
  /\ fetchCalls (trace run)
     = [("https://api.example.com/search?q=1&q=2", plainInit GET)]
  /\ splitFirst "?" "https://api.example.com/search?q=1&q=2"
     = ("https://api.example.com/search", Some "q=1&q=2")
  /\ keys (parseQuery "q=1&q=2") = ["q"; "q"]
  /\ count_occ string_dec (keys (parseQuery "q=1&q=2")) "q" <> 1%nat.
Proof. cbv zeta. repeat split. discriminate. Qed.

(** C4 (as amended) on a plain-string URL with colliding mappings. *)
Lemma merged_query_appended_witness :
  let dfl := paramsConfig [("lang", "en"); ("q", "old")] in
  let cfg := paramsConfig [("q", "new value"); ("page", "2")] in
  let w := worldWith dfl (inr ok200) in
  wf_obj (ownProps (params (givenConfig (Some cfg))))
  /\ wf_obj (ownProps (params (defaults w)))
  /\ (params (givenConfig (Some cfg)) <> None \/ params (defaults w) <> None)
  /\ In ("/search?lang=en&q=new%20value&page=2", plainInit GET)
       (fetchCalls (trace (request GET "/search" JUndefined (Some cfg) w)))
  /\ NoDup (keys (urlParams (givenConfig (Some cfg)) (defaults w))).
Proof.
  cbv zeta.
  assert (Hc : wf_obj (ownProps (params (givenConfig
                 (Some (paramsConfig [("q", "new value"); ("page", "2")])))))).
  { repeat constructor; simpl; intuition discriminate. }
  assert (Hd : wf_obj (ownProps (params (defaults
                 (worldWith (paramsConfig [("lang", "en"); ("q", "old")])
                    (inr ok200)))))).
  { repeat constructor; simpl; intuition discriminate. }
  assert (Hs : params (givenConfig
                 (Some (paramsConfig [("q", "new value"); ("page", "2")])))
               <> None
               \/ params (defaults
                    (worldWith (paramsConfig [("lang", "en"); ("q", "old")])
                       (inr ok200))) <> None)
    by (left; discriminate).
  assert (Hin : In ("/search?lang=en&q=new%20value&page=2", plainInit GET)
                  (fetchCalls
                     (trace (request GET "/search" JUndefined
                               (Some (paramsConfig
                                        [("q", "new value"); ("page", "2")]))
                               (worldWith
                                  (paramsConfig [("lang", "en"); ("q", "old")])
                                  (inr ok200))))))
    by (left; reflexivity).
  split; [exact Hc|]. split; [exact Hd|]. split; [exact Hs|].
  split; [exact Hin|].
  exact (proj1 (@merged_query_appended examplePlatform unit GET "/search"
                  JUndefined _ _ _ _ Hc Hd Hs Hin)).
Defined.



(** C6 as stated fails.  A truthy payload whose request transform returns
    the empty string is sent without a body; and a transform that returns
    another payload has that payload serialized, not the one passed in. *)
Lemma transformed_payload_decides_body :
  let w := worldWith emptyConfig (inr ok200) in
  let blank := transformConfig (fun _ _ => JStr "") in
  let other := transformConfig (fun _ _ => JStr "b") in
  truthy (JStr "hello") = true
  /\ fetchCalls (trace (post "/data" (JStr "hello") (Some blank) w))
     = [("/data", plainInit POST)]
  /\ body (plainInit POST) <> Some (JSON_stringify (JStr "hello"))
  /\ fetchCalls (trace (post "/data" (JStr "a") (Some other) w))
     = [("/data",
         {| method := POST;
            initHeaders := [("Content-Type", "application/json")];
            body := Some (JSON_stringify (JStr "b"));
            signal := mkSignal None |})]
  /\ JSON_stringify (JStr "b") <> JSON_stringify (JStr "a").
Proof. cbv zeta. repeat split; discriminate. Qed.

(** C6 (as amended) on a form-encoded POST. *)
Lemma body_serialization_witness :
  let w := worldWith emptyConfig (inr ok200) in
  let d := JObj [("name", JStr "a b"); ("n", JNum 3)] in
  let i := {| method := POST;
              initHeaders :=
                [("Content-Type", "application/x-www-form-urlencoded")];
              body := Some "name=a+b&n=3";
              signal := mkSignal None |} in
  truthy d = true
  /\ In ("/data", i)
       (fetchCalls (trace (request POST "/data" d (Some formConfig) w)))
  /\ URLSearchParams_toString d = inr "name=a+b&n=3".
Proof.
  cbv zeta.
  assert (Hd : truthy (JObj [("name", JStr "a b"); ("n", JNum 3)]) = true)
    by reflexivity.
  assert (Hin : In ("/data",
                    {| method := POST;
                       initHeaders :=
                         [("Content-Type", "application/x-www-form-urlencoded")];
                       body := Some "name=a+b&n=3";
                       signal := mkSignal None |})
                  (fetchCalls
                     (trace (request POST "/data"
                               (JObj [("name", JStr "a b"); ("n", JNum 3)])
                               (Some formConfig)
                               (worldWith emptyConfig (inr ok200))))))
    by (left; reflexivity).
  split; [exact Hd|]. split; [exact Hin|].
  exact (proj2 (@body_serialization examplePlatform unit POST "/data" _ _ _
                  _ _ Hd Hin)).
Defined.

(** C7 as stated fails.  With the per-call token [''] the Authorization
    header supplied in the per-call headers is handed to the transport as
    it is; no [Bearer] entry is added. *)
Lemma empty_token_adds_no_header :
  let w := worldWith emptyConfig (inr ok200) in
  let run := get "/data" (Some (tokenConfig "")) w in
  let hs := [("Authorization", "Basic dXNlcg==");
             ("Content-Type", "application/json")] in
  token (givenConfig (Some (tokenConfig ""))) = Some ""
  /\ fetchCalls (trace run)
     = [("/data",
         {| method := GET; initHeaders := hs; body := None;
            signal := mkSignal None |})]
  /\ obj_get "Authorization" hs = Some "Basic dXNlcg=="
  /\ obj_get "Authorization" hs <> Some ("Bearer " ++ "")%string.
Proof. cbv zeta. repeat split. discriminate. Qed.

(** C7 (as amended) on the token [abc] over a supplied Basic header. *)
Lemma bearer_token_header_witness :
  let w := worldWith emptyConfig (inr ok200) in
  let i := {| method := GET;
              initHeaders := [("Authorization", "Bearer abc");
                              ("Content-Type", "application/json")];
              body := None;
              signal := mkSignal None |} in
  token (givenConfig (Some (tokenConfig "abc"))) = Some "abc"
  /\ "abc" <> ""
  /\ In ("/data", i)
       (fetchCalls (trace (request GET "/data" JUndefined
                             (Some (tokenConfig "abc")) w)))
  /\ obj_get "Authorization" (initHeaders i) = Some "Bearer abc".
Proof.
  cbv zeta.
  assert (Ht : token (givenConfig (Some (tokenConfig "abc"))) = Some "abc")
    by reflexivity.
  assert (Hne : "abc" <> "") by discriminate.
  assert (Hin : In ("/data",
                    {| method := GET;
                       initHeaders := [("Authorization", "Bearer abc");
                                       ("Content-Type", "application/json")];
                       body := None;
                       signal := mkSignal None |})
                  (fetchCalls
                     (trace (request GET "/data" JUndefined
                               (Some (tokenConfig "abc"))
                               (worldWith emptyConfig (inr ok200))))))
    by (left; reflexivity).
  split; [exact Ht|]. split; [exact Hne|]. split; [exact Hin|].
  exact (proj1 (@bearer_token_header examplePlatform unit GET "/data"
                  JUndefined _ _ _ _ "abc" Ht Hne Hin)).
Defined.

(** C8 on a POST of [0] with transforms configured per call and in the
    defaults. *)
Lemma falsy_payload_no_body_witness :
  let w := worldWith (transformConfig (fun _ _ => JStr "default")) (inr ok200) in
  let cfg := transformConfig (fun _ _ => JStr "b") in
  truthy (JNum 0) = false
  /\ fetchCalls (trace (request POST "/data" (JNum 0) (Some cfg) w))
     = [("/data", plainInit POST)]
  /\ (forall e, In e (trace (request POST "/data" (JNum 0) (Some cfg) w)) ->
                isTransformRequest e = false)
  /\ (forall u i,
        In (u, i)
           (fetchCalls (trace (request POST "/data" (JNum 0) (Some cfg) w))) ->
        body i = None).
Proof.
  cbv zeta.
  assert (Hd : truthy (JNum 0) = false) by reflexivity.
  split; [exact Hd|]. split; [reflexivity|].
  exact (@falsy_payload_no_body examplePlatform unit POST "/data" (JNum 0)
           (Some (transformConfig (fun _ _ => JStr "b")))
           (worldWith (transformConfig (fun _ _ => JStr "default")) (inr ok200))
           Hd).
Defined.



(** The repository's test ['GET request'] mocks a 200 answer without a
    content-type header and without [text()]: the dispatcher hands the
    transport what the test expects, then reads the body as text, and the
    call rejects with the error of the missing method. *)
Lemma test_mock_is_read_as_text :
  let w := worldWith emptyConfig (inr testMock) in
  let run := get "https://api.example.com/data" None w in
  fetchCalls (trace run) = [("https://api.example.com/data", plainInit GET)]
  /\ declaresJson testMock = false
  /\ In EvText (trace run)
  /\ result run = inl (mkError "TypeError" "response.text is not a function").
Proof.
  cbv zeta. split; [reflexivity|]. split; [reflexivity|].
  split; [|reflexivity]. right. right. left. reflexivity.
Qed.

End Runs.

(* ================================================================== *)
(** ** The query text reads back *)

Section QueryRoundTrip.

Import Example.

Lemma hasChar_app c a b : hasChar c (a ++ b) = hasChar c a || hasChar c b.
Proof.
  induction a as [|x a IH]; simpl; [reflexivity|].
  now rewrite IH, orb_assoc.
Qed.

Lemma splitAll_cons c s : exists h t, splitAll c s = h :: t.
Proof.
  induction s as [|a r (h & t & E)]; simpl; [now eexists _, _|].
  destruct (Ascii.eqb a c); [now eexists _, _|].
  rewrite E. now eexists _, _.
Qed.

Lemma splitAll_plain c a :
  hasChar c a = false -> splitAll c a = [a].
Proof.
  induction a as [|x a IH]; simpl; [reflexivity|].
  intros [Hx Ha]%orb_false_iff. now rewrite Hx, (IH Ha).
Qed.

Lemma splitAll_sep c a b :
  hasChar c a = false -> splitAll c (a ++ String c b) = a :: splitAll c b.
Proof.
  induction a as [|x a IH]; simpl.
  - intros _. now rewrite Ascii.eqb_refl.
  - intros [Hx Ha]%orb_false_iff. now rewrite Hx, (IH Ha).
Qed.

Lemma splitAll_join c l :
  l <> [] -> Forall (fun s => hasChar c s = false) l ->
  splitAll c (join (String c "") l) = l.
Proof.
  induction l as [|x r IH]; [congruence|]. intros _ Hall.
  inversion Hall as [|? ? Hx Hr]; subst.
  destruct r as [|y r'].
  - simpl. now apply splitAll_plain.
  - change (join (String c "") (x :: y :: r'))
      with (x ++ String c (join (String c "") (y :: r')))%string.
    rewrite splitAll_sep by exact Hx. f_equal. apply IH; [discriminate|exact Hr].
Qed.

Lemma splitFirst_sep c a b :
  hasChar c a = false -> splitFirst c (a ++ String c b) = (a, Some b).
Proof.
  induction a as [|x a IH]; simpl.
  - intros _. now rewrite Ascii.eqb_refl.
  - intros [Hx Ha]%orb_false_iff. now rewrite Hx, (IH Ha).
Qed.

Lemma pctByte_no_amp c r : hasChar "&" (pctByte c ++ r) = hasChar "&" r.
Proof. destruct c as [[] [] [] [] [] [] [] []]; reflexivity. Qed.

(** An encoded value has no [&] in it. *)
Lemma encodeURIComponent_no_amp v :
  hasChar "&" (encodeURIComponent v) = false.
Proof.
  unfold encodeURIComponent. induction v as [|c r IH]; [reflexivity|].
  cbn [encodeWith]. destruct (uriUnreserved c) eqn:Hs.
  - cbn [hasChar]. rewrite IH.
    destruct (Ascii.eqb_spec c "&"%char); [subst; discriminate | reflexivity].
  - cbn [andb]. now rewrite pctByte_no_amp.
Qed.

Lemma querySegment_shape kv :
  safeKey (fst kv) = true ->
  hasChar "&" (querySegment kv) = false
  /\ querySegment kv <> ""
  /\ splitFirst "=" (querySegment kv)
     = (fst kv, Some (encodeURIComponent (snd kv))).
Proof.
  unfold safeKey, querySegment. intros [Ha He]%andb_true_iff.
  apply negb_true_iff in Ha, He. repeat split.
  - rewrite hasChar_app. cbn [append hasChar]. simpl Ascii.eqb.
    now rewrite Ha, encodeURIComponent_no_amp.
  - destruct (fst kv); discriminate.
  - now apply splitFirst_sep.
Qed.

Lemma parseQuery_segments ps :
  Forall (fun k => safeKey k = true) (keys ps) ->
  parseQuery (join "&" (map querySegment ps))
  = map (fun kv => (fst kv, encodeURIComponent (snd kv))) ps.
Proof.
  intros Hk. unfold parseQuery.
  assert (Hseg : Forall (fun kv => safeKey (fst kv) = true) ps).
  { unfold keys in Hk. rewrite Forall_map in Hk. exact Hk. }
  destruct ps as [|kv r]; [reflexivity|].
  rewrite splitAll_join.
  - clear Hk. induction Hseg as [|kv' l Hkv _ IH]; [reflexivity|].
    destruct (querySegment_shape kv' Hkv) as (_ & Hne & Hsp).
    cbn [map filter].
    destruct (String.eqb_spec (querySegment kv') ""); [contradiction|].
    cbn [negb map]. rewrite Hsp, IH. reflexivity.
  - discriminate.
  - rewrite Forall_map. revert Hseg. apply Forall_impl.
    intros kv' Hkv. now apply querySegment_shape.
Qed.

(** X12.  The query text that lines 60-65 build from a mapping whose keys
    contain neither [&] nor [=] reads back as that mapping, pair by pair
    and in order, whatever characters the values contain. *)
Theorem query_text_reads_back (ps : JSObject string) :
  Forall (fun k => safeKey k = true) (keys ps) ->
  readQuery (dropLast (queryString ps)) = ps.
Proof.
  intros Hk. unfold readQuery.
  rewrite queryString_segments, parseQuery_segments by exact Hk.
  rewrite map_map. cbn [fst snd].
  induction ps as [|[k v] r IH]; [reflexivity|].
  cbn [map fst snd].
  rewrite (proj2 (encodeURIComponent_encoded v)), IH; [reflexivity|].
  now inversion Hk.
Qed.

End QueryRoundTrip.

(* ================================================================== *)
(** ** Failures before the transport, and the order of a run *)

Section Order.

Context {P : Platform}.
Variable TS : Type.
Implicit Types (w : World TS) (cfg dfl : FetcherConfig).

(** X1.  When no [fetch] is defined the call fails with the error of
    lines 37-39 whatever the other arguments are, even a URL that cannot
    be resolved: nothing is called, armed or changed. *)
Theorem missing_fetch_fails_first m url d conf w :
  fetch w = None ->
  request m url d conf w = mkOutcome (inl fetchMissing) w []
  /\ errName fetchMissing = "Error"
  /\ String.prefix "fetch is not defined." (errMessage fetchMissing) = true.
Proof.
  intros Hf. rewrite request_run. cbv zeta. rewrite Hf. now repeat split.
Qed.

(** X2.  For a URL that matches [/^(https?|ftp):\/\//] the base URL plays
    no part: whatever base URLs the per-call config and the defaults
    carry, the transport is handed [new URL(url)] (with the configured
    query parameters appended), and when that constructor throws, the call
    fails with the constructor's own error, not with [Invalid URL: ...],
    before anything else happens. *)
Theorem absolute_url_ignores_base m url d conf w :
  isAbsolute url = true ->
  (forall cfg' dfl',
     resolveUrl (givenConfig conf) (defaults w) url = resolveUrl cfg' dfl' url)
  /\ (forall u i, In (u, i) (fetchCalls (trace (request m url d conf w))) ->
      exists o, URL_new url None = inr o
                /\ u = fetchUrl_toString
                         (appendParams (givenConfig conf) (defaults w) (UrlObj o)))
  /\ (forall e, URL_new url None = inl e -> fetch w <> None ->
      request m url d conf w = mkOutcome (inl e) w []).
Proof.
  intros Habs.
  assert (Hres : forall cfg dfl,
             resolveUrl cfg dfl url
             = match URL_new url None with
               | inr o => inr (UrlObj o)
               | inl e => inl e
               end)
    by (intros; unfold resolveUrl; now rewrite Habs).
  split; [intros; now rewrite !Hres|]. split.
  - intros u i Hin. apply request_handed, handed_inv in Hin.
    destruct Hin as (fu & b & Hfu & _ & -> & _). rewrite Hres in Hfu.
    destruct (URL_new url None) as [e|o]; [discriminate|].
    injection Hfu as <-. now exists o.
  - intros e He Hf. rewrite request_run. cbv zeta. rewrite Hres, He.
    now destruct (fetch w).
Qed.

Lemma prelude_Forall cfg dfl d hs :
  Forall (fun e => isPrelude e = true)
    (transformRequestEvents cfg dfl d hs ++ timerEvents cfg dfl).
Proof.
  rewrite Forall_forall. intros e He. apply in_app_or in He.
  now apply (prelude_events cfg dfl d hs).
Qed.

Lemma transformRequestEvents_prelude cfg dfl d hs :
  Forall (fun e => isPrelude e = true) (transformRequestEvents cfg dfl d hs).
Proof.
  rewrite Forall_forall. intros e He.
  apply (prelude_events cfg dfl d hs). now left.
Qed.

Lemma phase_nil kind : phase kind [].
Proof. split; [simpl; lia | constructor]. Qed.

Lemma phase_one kind e : kind e = true -> phase kind [e].
Proof. intros H. split; [simpl; lia | now repeat constructor]. Qed.

Lemma transformRequestEvents_phase cfg dfl d hs :
  phase isTransformRequest (transformRequestEvents cfg dfl d hs).
Proof.
  unfold transformRequestEvents.
  destruct (truthy d); [destruct (or_else _ _ _)|];
    first [apply phase_nil | now apply phase_one].
Qed.

Lemma timerEvents_phase cfg dfl : phase isTimer (timerEvents cfg dfl).
Proof.
  unfold timerEvents.
  destruct (armedTimeout cfg dfl); first [apply phase_nil | now apply phase_one].
Qed.

Lemma transformResponseEvents_phase cfg dfl v :
  phase isTransformResponse (transformResponseEvents cfg dfl v).
Proof.
  unfold transformResponseEvents.
  destruct (or_else _ _ _); first [apply phase_nil | now apply phase_one].
Qed.

(** Lines 117-136 validate the status, then read the body, then apply the
    response transform, each at most once and none without the one
    before. *)
Lemma settle_phases cfg dfl h r w :
  exists rd x,
    trace (settle cfg dfl h r w) = [EvValidateStatus (resp_status r)] ++ rd ++ x
    /\ phase isBodyRead rd
    /\ phase isTransformResponse x
    /\ (rd = [] -> x = []).
Proof.
  destruct (effValidateStatus cfg dfl (resp_status r)) eqn:H.
  - rewrite (settle_accepted _ _ _ _ _ H).
    assert (Hrd : phase isBodyRead [readEvent r])
      by (apply phase_one; unfold readEvent; now destruct (declaresJson r)).
    destruct (decodedBody r) as [e|v]; cbn [trace].
    + exists [readEvent r], []. split; [reflexivity|]. split; [exact Hrd|].
      split; [apply phase_nil | discriminate].
    + exists [readEvent r], (transformResponseEvents cfg dfl v).
      split; [reflexivity|]. split; [exact Hrd|].
      split; [apply transformResponseEvents_phase | discriminate].
  - rewrite (settle_rejected _ _ _ _ _ H). cbn [trace].
    exists [], []. split; [reflexivity|]. split; [apply phase_nil|].
    split; [apply phase_nil | reflexivity].
Qed.

(** X8.  The events of a run come in this order, each at most once: the
    request transform, arming the timer, the call of the transport,
    validating the status, reading the body, the response transform.  The
    status is validated only after the transport was called, the body is
    read only after the status was validated, and the response transform
    is applied only after the body was read.  In particular the transport
    is never called twice. *)
Theorem run_phases m url d conf w :
  exists t s f v r x,
    trace (request m url d conf w) = t ++ s ++ f ++ v ++ r ++ x
    /\ phase isTransformRequest t
    /\ phase isTimer s
    /\ phase isFetch f
    /\ phase isValidate v
    /\ phase isBodyRead r
    /\ phase isTransformResponse x
    /\ (f = [] -> v = [])
    /\ (v = [] -> r = [])
    /\ (r = [] -> x = [])
    /\ (List.length (fetchCalls (trace (request m url d conf w))) <= 1)%nat.
Proof.
  assert (Hlen : (List.length (fetchCalls (trace (request m url d conf w))) <= 1)%nat).
  { rewrite request_fetchCalls. destruct (fetch w); [|simpl; lia].
    destruct (handedToTransport _ _ _ _ _); simpl; lia. }
  revert Hlen. rewrite request_run. cbv zeta. intros Hlen.
  assert (Hnone : exists t s f v r x : list Event,
             @nil Event = t ++ s ++ f ++ v ++ r ++ x
             /\ phase isTransformRequest t /\ phase isTimer s
             /\ phase isFetch f /\ phase isValidate v
             /\ phase isBodyRead r /\ phase isTransformResponse x
             /\ (f = [] -> v = []) /\ (v = [] -> r = [])
             /\ (r = [] -> x = [])).
  { exists [], [], [], [], [], []. split; [reflexivity|].
    repeat (split; [apply phase_nil|]). repeat split; reflexivity. }
  destruct (fetch w) as [f|].
  2:{ destruct Hnone as (t & s & f & v & r & x & H0 & H1 & H2 & H3 & H4 & H5
                         & H6 & H7 & H8 & H9).
      exists t, s, f, v, r, x. repeat (split; [assumption|]). exact Hlen. }
  destruct (resolveUrl _ _ url) as [e|fu].
  { destruct Hnone as (t & s & f0 & v & r & x & H0 & H1 & H2 & H3 & H4 & H5
                       & H6 & H7 & H8 & H9).
    exists t, s, f0, v, r, x. repeat (split; [assumption|]). exact Hlen. }
  destruct (requestBody _ _) as [e|b]; cbn [trace] in *.
  { exists (transformRequestEvents (givenConfig conf) (defaults w) d
              (requestHeaders (givenConfig conf) (defaults w))),
      [], [], [], [], [].
    split; [now rewrite app_nil_r|].
    split; [apply transformRequestEvents_phase|].
    repeat (split; [apply phase_nil|]).
    repeat (split; [reflexivity|]). exact Hlen. }
  set (target := fetchUrl_toString _) in *. set (init := mkInit _ _ _ _) in *.
  destruct (fst (f target init (tstate w))) as [e|a];
    cbn [trace answerView] in *.
  - exists (transformRequestEvents (givenConfig conf) (defaults w) d
              (requestHeaders (givenConfig conf) (defaults w))),
      (timerEvents (givenConfig conf) (defaults w)),
      [EvFetch target init (inl e)], [], [], [].
    split; [reflexivity|].
    split; [apply transformRequestEvents_phase|].
    split; [apply timerEvents_phase|].
    split; [now apply phase_one|].
    repeat (split; [apply phase_nil|]).
    split; [discriminate|]. repeat (split; [reflexivity|]). exact Hlen.
  - destruct (settle_phases (givenConfig conf) (defaults w) (fst a)
                (viewOf w a)
                (mkWorld (defaults w) (Some f)
                   (snd (f target init (tstate w))) (bodyUsed w)))
      as (rd & x & Ht & Hrd & Hx & Hrx).
    exists (transformRequestEvents (givenConfig conf) (defaults w) d
              (requestHeaders (givenConfig conf) (defaults w))),
      (timerEvents (givenConfig conf) (defaults w)),
      [EvFetch target init (inr (viewOf w a))],
      [EvValidateStatus (resp_status (viewOf w a))], rd, x.
    split; [rewrite Ht; now rewrite <- !app_assoc|].
    split; [apply transformRequestEvents_phase|].
    split; [apply timerEvents_phase|].
    split; [now apply phase_one|].
    split; [now apply phase_one|].
    split; [exact Hrd|]. split; [exact Hx|].
    split; [discriminate|]. split; [discriminate|].
    split; [exact Hrx | exact Hlen].
Qed.

Lemma transform_event_kind cfg dfl d hs e :
  In e (transformRequestEvents cfg dfl d hs) -> isPrelude e = true.
Proof. intros H. apply (prelude_events cfg dfl d hs). now left. Qed.

Lemma timer_event_kind cfg dfl e :
  In e (timerEvents cfg dfl) -> isPrelude e = true.
Proof. intros H. apply (prelude_events cfg dfl JUndefined []). now right. Qed.

Lemma settle_event_kind cfg dfl h r w e :
  In e (trace (settle cfg dfl h r w)) -> isSettleEvent e = true.
Proof.
  intros H. pose proof (settle_events cfg dfl h r w) as Hs.
  rewrite Forall_forall in Hs. now apply Hs.
Qed.

(** X5.  When the transport rejects, its error is the error of the call,
    as it is; the status is not validated, no body is read and no
    response transform is applied. *)
Theorem transport_rejection_propagated m url d conf w u i e :
  In (EvFetch u i (inl e)) (trace (request m url d conf w)) ->
  result (request m url d conf w) = inl e
  /\ (forall ev, In ev (trace (request m url d conf w)) ->
                 isSettleEvent ev = false).
Proof.
  rewrite request_run. cbv zeta.
  destruct (fetch w) as [f|]; [|intros []].
  destruct (resolveUrl _ _ url) as [e0|fu]; [intros []|].
  destruct (requestBody _ _) as [e0|b]; cbn [trace result].
  - intros H. apply transform_event_kind in H. discriminate.
  - destruct (fst (f _ _ (tstate w))) as [e0|a];
      cbn [trace result answerView]; rewrite ?in_app_iff; cbn [In].
    + intros [H|[H|[[= _ _ ->]|[]]]].
      * apply transform_event_kind in H. discriminate.
      * apply timer_event_kind in H. discriminate.
      * split; [reflexivity|]. intros ev Hev.
        rewrite !in_app_iff in Hev. cbn [In] in Hev.
        destruct Hev as [H|[H|[<-|[]]]]; [| |reflexivity].
        -- apply transform_event_kind in H. now destruct ev.
        -- apply timer_event_kind in H. now destruct ev.
    + intros [[H|[H|[[=]|[]]]]|H].
      * apply transform_event_kind in H. discriminate.
      * apply timer_event_kind in H. discriminate.
      * apply settle_event_kind in H. discriminate.
Qed.

(** X9.  A timer is armed at most once, never with the delay [0], and
    exactly when the signal handed to the transport carries that delay:
    the timer events of a run are the delay of the signal, if any. *)
Theorem timer_matches_signal m url d conf w u i :
  In (u, i) (fetchCalls (trace (request m url d conf w))) ->
  filter isTimer (trace (request m url d conf w))
  = match abortAfter (signal i) with
    | Some t => [EvSetTimeout t]
    | None => []
    end
  /\ abortAfter (signal i) <> Some 0
  /\ (forall t, In (EvSetTimeout t) (trace (request m url d conf w)) <->
                abortAfter (signal i) = Some t).
Proof.
  intros Hin.
  assert (Hf : filter isTimer (trace (request m url d conf w))
               = match abortAfter (signal i) with
                 | Some t => [EvSetTimeout t]
                 | None => []
                 end).
  { pose proof Hin as Hh. apply request_handed, handed_inv in Hh.
    destruct Hh as (fu & b & Hfu & Hb & _ & ->). cbn [signal abortAfter].
    rewrite request_fetchCalls in Hin. rewrite request_run. cbv zeta.
    destruct (fetch w) as [f|]; [|contradiction].
    rewrite Hfu, Hb.
    assert (Hpre : forall dd hs,
               filter isTimer
                 (transformRequestEvents (givenConfig conf) (defaults w) dd hs)
               = []).
    { intros. unfold transformRequestEvents.
      destruct (truthy dd); [destruct (or_else _ _ _)|]; reflexivity. }
    assert (Htim : filter isTimer (timerEvents (givenConfig conf) (defaults w))
                   = match armedTimeout (givenConfig conf) (defaults w) with
                     | Some t => [EvSetTimeout t]
                     | None => []
                     end).
    { unfold timerEvents. now destruct (armedTimeout _ _). }
    assert (Hset : forall h0 r0 w0,
               filter isTimer
                 (trace (settle (givenConfig conf) (defaults w) h0 r0 w0))
               = []).
    { intros h0 r0 w0.
      pose proof (settle_events (givenConfig conf) (defaults w) h0 r0 w0)
        as Hs.
      induction Hs as [|ev l Hev _ IH]; [reflexivity|].
      simpl. rewrite IH. now destruct ev. }
    destruct (fst (f _ _ (tstate w))); cbn [trace];
      rewrite ?filter_app, Hpre, Htim, ?Hset; cbn [filter isTimer app];
      now rewrite ?app_nil_r. }
  split; [exact Hf|].
  assert (Hne : abortAfter (signal i) <> Some 0).
  { apply request_handed, handed_inv in Hin.
    destruct Hin as (fu & b & _ & _ & _ & ->). cbn [signal abortAfter].
    unfold armedTimeout. destruct (effTimeout _ _) as [t|]; [|discriminate].
    destruct (truthyNum t) eqn:Ht; [|discriminate].
    intros [= ->]. discriminate. }
  split; [exact Hne|].
  intros t. split.
  - intros Ht.
    assert (Hin' : In (EvSetTimeout t)
                     (filter isTimer (trace (request m url d conf w))))
      by (apply filter_In; now split).
    rewrite Hf in Hin'. destruct (abortAfter (signal i)); [|contradiction].
    destruct Hin' as [[= ->]|[]]. reflexivity.
  - intros Ht. rewrite Ht in Hf.
    assert (Hin' : In (EvSetTimeout t)
                     (filter isTimer (trace (request m url d conf w))))
      by (rewrite Hf; now left).
    now apply filter_In in Hin'.
Qed.

(** X10.  When the outgoing payload is truthy, the effective content type
    is [application/x-www-form-urlencoded] and the [URLSearchParams]
    constructor throws on the payload, the call fails with the
    constructor's error after the request transform was applied and before
    the timer is armed and the transport called. *)
Theorem form_failure_stops_before_transport m url d conf w fu e :
  let cfg := givenConfig conf in
  let dfl := defaults w in
  let out := outgoingPayload cfg dfl d (requestHeaders cfg dfl) in
  fetch w <> None ->
  resolveUrl cfg dfl url = inr fu ->
  truthy out = true ->
  effContentType cfg dfl = "application/x-www-form-urlencoded" ->
  URLSearchParams_toString out = inl e ->
  request m url d conf w
  = mkOutcome (inl e) w
      (transformRequestEvents cfg dfl d (requestHeaders cfg dfl))
  /\ fetchCalls (trace (request m url d conf w)) = []
  /\ filter isTimer (trace (request m url d conf w)) = [].
Proof.
  intros cfg dfl out Hf Hfu Ho Hct He. subst cfg dfl out.
  assert (Hb : requestBody (effContentType (givenConfig conf) (defaults w))
                 (outgoingPayload (givenConfig conf) (defaults w) d
                    (requestHeaders (givenConfig conf) (defaults w)))
               = inl e).
  { unfold requestBody. now rewrite Ho, Hct, He. }
  assert (E : request m url d conf w
              = mkOutcome (inl e) w
                  (transformRequestEvents (givenConfig conf) (defaults w) d
                     (requestHeaders (givenConfig conf) (defaults w)))).
  { rewrite request_run. cbv zeta. rewrite Hfu, Hb.
    destruct (fetch w); [reflexivity | contradiction]. }
  rewrite E. cbn [trace]. split; [reflexivity|].
  split; [apply fetchCalls_transform|].
  unfold transformRequestEvents.
  destruct (truthy d); [destruct (or_else _ _ _)|]; reflexivity.
Qed.

End Order.

(* ================================================================== *)
(** ** Callbacks, the envelope and the globals *)

Section Callbacks.

Context {P : Platform}.
Variable TS : Type.
Implicit Types (w : World TS) (cfg dfl : FetcherConfig).

(** X14.  The request transform is applied at most once, to the payload
    as it was passed in, which is then truthy, and to the header mapping
    in its final form: the very mapping, with the forced Content-Type and
    the bearer token, that the transport is handed afterwards. *)
Theorem request_transform_sees_sent_headers m url d conf w d' h :
  let cfg := givenConfig conf in
  let dfl := defaults w in
  In (EvTransformRequest d' h) (trace (request m url d conf w)) ->
  d' = d
  /\ truthy d = true
  /\ (exists f,
        spec_supplied (transformRequest cfg) (transformRequest dfl) = Some f)
  /\ h = requestHeaders cfg dfl
  /\ obj_get "Content-Type" h = Some (effContentType cfg dfl)
  /\ (forall u i, In (u, i) (fetchCalls (trace (request m url d conf w))) ->
                  initHeaders i = h)
  /\ filter isTransformRequest (trace (request m url d conf w))
     = [EvTransformRequest d h].
Proof.
  intros cfg dfl Hin.
  assert (Hf : In (EvTransformRequest d' h)
                 (filter isTransformRequest (trace (request m url d conf w))))
    by (apply filter_In; now split).
  rewrite request_transform_events in Hf |- *.
  destruct (fetch w); [|contradiction].
  destruct (resolveUrl _ _ url); [contradiction|].
  revert Hf. unfold transformRequestEvents, or_else, truthyOpt, truthyRef,
    spec_supplied.
  destruct (truthy d) eqn:Hd; [|intros []].
  fold cfg dfl.
  assert (Hcalls : forall u i,
             In (u, i) (fetchCalls (trace (request m url d conf w))) ->
             initHeaders i = requestHeaders cfg dfl).
  { intros u i Hi. apply request_handed, handed_inv in Hi.
    now destruct Hi as (fu & b & _ & _ & _ & ->). }
  destruct (transformRequest cfg) as [g|];
    [|destruct (transformRequest dfl) as [g|]; [|intros []]];
    intros [[= <- <-]|[]]; repeat split; eauto using requestHeaders_contentType.
Qed.



Lemma in_keys_fromEntries {V} (es : list (string * V)) k :
  In k (keys (fromEntries es)) <-> In k (map fst es).
Proof.
  unfold fromEntries. rewrite in_keys_assign. simpl. unfold keys. tauto.
Qed.

(** X7.  The envelope of a call that returns reports the response the
    transport answered with: it is the [request] field, [status] and
    [statusText] are its, the status is one the effective validator
    accepts, and [headers] is a mapping with exactly the names of the
    response's header entries, each once, which for entries with distinct
    names gives each name its value. *)
Theorem envelope_reports_response m url d conf w env :
  let cfg := givenConfig conf in
  let dfl := defaults w in
  let r := rawResponse env in
  result (request m url d conf w) = inr env ->
  (exists u i, In (EvFetch u i (inr r)) (trace (request m url d conf w)))
  /\ status env = resp_status r
  /\ statusText env = resp_statusText r
  /\ effValidateStatus cfg dfl (status env) = true
  /\ NoDup (keys (responseHeaders env))
  /\ (forall k, In k (keys (responseHeaders env)) <-> In k (map fst (resp_headers r)))
  /\ (NoDup (map fst (resp_headers r)) ->
      forall k, obj_get k (responseHeaders env) = obj_get k (resp_headers r)).
Proof.
  intros cfg dfl r. subst cfg dfl r. rewrite request_run. cbv zeta.
  destruct (fetch w) as [f|]; [|discriminate].
  destruct (resolveUrl _ _ url) as [e|fu]; [discriminate|].
  destruct (requestBody _ _) as [e|b]; [discriminate|].
  set (target := fetchUrl_toString _). set (init := mkInit _ _ _ _).
  destruct (fst (f target init (tstate w))) as [e|a];
    cbn [trace result answerView]; [discriminate|].
  set (r := viewOf w a).
  destruct (effValidateStatus (givenConfig conf) (defaults w) (resp_status r))
    eqn:Hv.
  2:{ rewrite (settle_rejected _ _ _ _ _ Hv). discriminate. }
  rewrite (settle_accepted _ _ _ _ _ Hv).
  destruct (decodedBody r) as [e|v]; cbn [result trace]; [discriminate|].
  intros [= <-]. cbn [rawResponse status statusText responseHeaders].
  split.
  { exists target, init. apply in_or_app. left.
    apply in_or_app. right. apply in_or_app. right. now left. }
  split; [reflexivity|]. split; [reflexivity|]. split; [exact Hv|].
  split; [apply wf_obj_assign; constructor|].
  split; [apply in_keys_fromEntries|].
  intros Hnd k. unfold fromEntries. rewrite obj_get_assign by exact Hnd.
  now destruct (obj_get k (resp_headers r)).
Qed.


(** A run never writes [Fetcher.defaults] nor the [fetch] binding;
    when it does not reach the transport the whole world is left as it
    was, and when it does, the transport's state is the one the transport
    call itself left. *)
Theorem request_preserves_globals m url d conf w :
  defaults (world (request m url d conf w)) = defaults w
  /\ fetch (world (request m url d conf w)) = fetch w
  /\ (fetchCalls (trace (request m url d conf w)) = [] ->
      world (request m url d conf w) = w)
  /\ (forall u i, In (u, i) (fetchCalls (trace (request m url d conf w))) ->
      exists f, fetch w = Some f
                /\ tstate (world (request m url d conf w))
                   = snd (f u i (tstate w))).
Proof.
  destruct (request_world m url d conf w) as [Hd Hf].
  split; [exact Hd|]. split; [exact Hf|].
  assert (Hcalls := request_fetchCalls m url d conf w).
  revert Hcalls. unfold handedToTransport.
  rewrite request_run. cbv zeta.
  destruct (fetch w) as [f|] eqn:Ef.
  2:{ intros _. split; [reflexivity | intros u i []]. }
  destruct (resolveUrl _ _ url) as [e|fu].
  { intros _. split; [reflexivity | intros u i []]. }
  destruct (requestBody _ _) as [e|b].
  { intros ->. split; [reflexivity | intros u i []]. }
  set (target := fetchUrl_toString _). set (init := mkInit _ _ _ _).
  destruct (fst (f target init (tstate w))) as [e|a];
    cbn [world trace]; intros ->; (split; [discriminate|]);
    intros u i [[= <- <-]|[]]; exists f; (split; [reflexivity|]).
  - reflexivity.
  - match goal with |- context [settle ?c ?dd ?h ?r ?w0] =>
      destruct (settle_globals c dd h r w0) as (_ & _ & ->) end.
    reflexivity.
Qed.

End Callbacks.

(* ================================================================== *)
(** ** Header merging, the default token, the wrappers, empty params *)

Section Merging.

Context {P : Platform}.
Variable TS : Type.
Implicit Types (w : World TS) (cfg dfl : FetcherConfig).

Lemma baseHeaders_get cfg dfl k :
  wf_obj (ownProps (headers cfg)) -> wf_obj (ownProps (headers dfl)) ->
  obj_get k (spread (spread [] (headers dfl)) (headers cfg))
  = match obj_get k (ownProps (headers cfg)) with
    | Some v => Some v
    | None => obj_get k (ownProps (headers dfl))
    end.
Proof.
  intros Hc Hd.
  rewrite !spread_ownProps, obj_get_assign, obj_get_assign by assumption.
  simpl. now destruct (obj_get k (ownProps (headers dfl))).
Qed.

Lemma requestHeaders_get cfg dfl k :
  wf_obj (ownProps (headers cfg)) -> wf_obj (ownProps (headers dfl)) ->
  k <> "Content-Type" ->
  k <> "Authorization" \/ truthyOpt truthyStr (token cfg) = false ->
  obj_get k (requestHeaders cfg dfl)
  = match obj_get k (ownProps (headers cfg)) with
    | Some v => Some v
    | None => obj_get k (ownProps (headers dfl))
    end.
Proof.
  intros Hc Hd Hct Hauth. rewrite <- (baseHeaders_get _ _ k Hc Hd).
  assert (E : obj_get k
                (obj_set "Content-Type" (effContentType cfg dfl)
                   (spread (spread [] (headers dfl)) (headers cfg)))
              = obj_get k (spread (spread [] (headers dfl)) (headers cfg))).
  { rewrite obj_get_set. destruct (String.eqb_spec "Content-Type" k);
      [congruence | reflexivity]. }
  unfold requestHeaders. pose proof (baseHeaders_wf cfg dfl) as Hwf.
  destruct (token cfg) as [t|]; [|exact E].
  destruct (truthyStr t) eqn:Ht; [|exact E].
  destruct Hauth as [Hk|Hk]; [|simpl in Hk; congruence].
  rewrite obj_get_set.
  destruct (String.eqb_spec "Authorization" k); [congruence|].
  rewrite obj_get_assign by exact Hwf. rewrite E.
  destruct (obj_get k (spread (spread [] (headers dfl)) (headers cfg)));
    reflexivity.
Qed.

Lemma requestHeaders_keys cfg dfl k :
  In k (keys (requestHeaders cfg dfl))
  <-> k = "Content-Type"
      \/ (k = "Authorization" /\ truthyOpt truthyStr (token cfg) = true)
      \/ In k (keys (ownProps (headers cfg)))
      \/ In k (keys (ownProps (headers dfl))).
Proof.
  assert (E : In k (keys (obj_set "Content-Type" (effContentType cfg dfl)
                            (spread (spread [] (headers dfl)) (headers cfg))))
              <-> k = "Content-Type"
                  \/ In k (keys (ownProps (headers cfg)))
                  \/ In k (keys (ownProps (headers dfl)))).
  { rewrite in_keys_set, !spread_ownProps, !in_keys_assign. simpl. tauto. }
  unfold requestHeaders.
  destruct (token cfg) as [t|]; simpl.
  - destruct (truthyStr t).
    + rewrite in_keys_set, in_keys_assign, E. simpl. intuition congruence.
    + rewrite E. intuition congruence.
  - rewrite E. intuition congruence.
Qed.

(** X3.  In the header mapping handed to the transport every name occurs
    once.  Its names are [Content-Type], [Authorization] when a non-empty
    per-call token is set, and the names of the per-call and of the
    default headers.  For every name other than [Content-Type] (and other
    than [Authorization] when a non-empty token is set) the value is the
    per-call header when there is one, else the default header. *)
Theorem header_precedence m url d conf w u i :
  let cfg := givenConfig conf in
  let dfl := defaults w in
  wf_obj (ownProps (headers cfg)) -> wf_obj (ownProps (headers dfl)) ->
  In (u, i) (fetchCalls (trace (request m url d conf w))) ->
  NoDup (keys (initHeaders i))
  /\ (forall k,
        In k (keys (initHeaders i))
        <-> k = "Content-Type"
            \/ (k = "Authorization" /\ truthyOpt truthyStr (token cfg) = true)
            \/ In k (keys (ownProps (headers cfg)))
            \/ In k (keys (ownProps (headers dfl))))
  /\ (forall k,
        k <> "Content-Type" ->
        k <> "Authorization" \/ truthyOpt truthyStr (token cfg) = false ->
        obj_get k (initHeaders i)
        = match obj_get k (ownProps (headers cfg)) with
          | Some v => Some v
          | None => obj_get k (ownProps (headers dfl))
          end).
Proof.
  intros cfg dfl Hc Hd Hin. apply request_handed, handed_inv in Hin.
  destruct Hin as (fu & b & _ & _ & _ & ->). cbn [initHeaders].
  split; [apply requestHeaders_wf|].
  split; [apply requestHeaders_keys|].
  intros k Hk Ha. now apply requestHeaders_get.
Qed.

Lemma settle_withToken cfg dfl t h r w w' :
  result (settle cfg (withToken t dfl) h r w') = result (settle cfg dfl h r w)
  /\ trace (settle cfg (withToken t dfl) h r w') = trace (settle cfg dfl h r w).
Proof.
  assert (Hv : effValidateStatus cfg (withToken t dfl)
               = effValidateStatus cfg dfl) by reflexivity.
  destruct (effValidateStatus cfg dfl (resp_status r)) eqn:H.
  - rewrite (settle_accepted cfg dfl h r w H).
    rewrite (settle_accepted cfg (withToken t dfl) h r w')
      by (now rewrite Hv).
    now destruct (decodedBody r).
  - rewrite (settle_rejected cfg dfl h r w H).
    now rewrite (settle_rejected cfg (withToken t dfl) h r w')
      by (now rewrite Hv).
Qed.

(** X4.  A token in [Fetcher.defaults] has no effect: with any other
    value, or none, in its place every call has the same result and the
    same trace, and so hands the transport the same headers. *)
Theorem default_token_is_ignored m url d conf w t :
  result (request m url d conf (withDefaults (withToken t (defaults w)) w))
  = result (request m url d conf w)
  /\ trace (request m url d conf (withDefaults (withToken t (defaults w)) w))
     = trace (request m url d conf w).
Proof.
  rewrite !request_run. cbv zeta. cbn [withDefaults defaults fetch tstate].
  change (resolveUrl (givenConfig conf) (withToken t (defaults w)) url)
    with (resolveUrl (givenConfig conf) (defaults w) url).
  destruct (fetch w) as [f|]; [|now split].
  destruct (resolveUrl _ _ url) as [e|fu]; [now split|].
  change (requestHeaders (givenConfig conf) (withToken t (defaults w)))
    with (requestHeaders (givenConfig conf) (defaults w)).
  change (effContentType (givenConfig conf) (withToken t (defaults w)))
    with (effContentType (givenConfig conf) (defaults w)).
  change (outgoingPayload (givenConfig conf) (withToken t (defaults w)))
    with (outgoingPayload (givenConfig conf) (defaults w)).
  change (transformRequestEvents (givenConfig conf) (withToken t (defaults w)))
    with (transformRequestEvents (givenConfig conf) (defaults w)).
  change (timerEvents (givenConfig conf) (withToken t (defaults w)))
    with (timerEvents (givenConfig conf) (defaults w)).
  change (armedTimeout (givenConfig conf) (withToken t (defaults w)))
    with (armedTimeout (givenConfig conf) (defaults w)).
  change (appendParams (givenConfig conf) (withToken t (defaults w)))
    with (appendParams (givenConfig conf) (defaults w)).
  change (answerView (withDefaults (withToken t (defaults w)) w))
    with (answerView w).
  change (viewOf (withDefaults (withToken t (defaults w)) w))
    with (viewOf w).
  destruct (requestBody _ _) as [e|b]; [now split|].
  destruct (fst (f _ _ (tstate w))) as [e|a]; cbn [result trace];
    [now split|].
  match goal with
  | |- context [settle _ (withToken t _) ?h ?r ?w1] =>
      match goal with
      | |- context [settle _ (defaults w) h r ?w2] =>
          destruct (settle_withToken (givenConfig conf) (defaults w) t h r
                      w2 w1) as [-> ->]
      end
  end.
  now split.
Qed.

(** X11.  Whatever the per-call config and the defaults are, [get] and
    [delete] never apply the request transform and hand the transport the
    methods [GET] and [DELETE] without a body; [post] and [put] hand it
    the methods [POST] and [PUT]. *)
Theorem wrappers_fix_method url d conf w u i :
  (In (u, i) (fetchCalls (trace (get url conf w))) ->
   method i = GET /\ body i = None
   /\ filter isTransformRequest (trace (get url conf w)) = [])
  /\ (In (u, i) (fetchCalls (trace (delete url conf w))) ->
      method i = DELETE /\ body i = None
      /\ filter isTransformRequest (trace (delete url conf w)) = [])
  /\ (In (u, i) (fetchCalls (trace (post url d conf w))) -> method i = POST)
  /\ (In (u, i) (fetchCalls (trace (put url d conf w))) -> method i = PUT).
Proof.
  assert (Hnone : forall m,
             In (u, i) (fetchCalls (trace (request m url JUndefined conf w))) ->
             method i = m /\ body i = None
             /\ filter isTransformRequest
                  (trace (request m url JUndefined conf w)) = []).
  { intros m Hin. rewrite request_transform_events.
    apply request_handed, handed_inv in Hin.
    destruct Hin as (fu & b & _ & Hb & _ & ->). cbn [method body].
    unfold outgoingPayload, requestBody in Hb. cbn [truthy] in Hb.
    injection Hb as <-. split; [reflexivity|]. split; [reflexivity|].
    unfold transformRequestEvents. cbn [truthy].
    destruct (fetch w); [destruct (resolveUrl _ _ url)|]; reflexivity. }
  assert (Hm : forall m,
             In (u, i) (fetchCalls (trace (request m url d conf w))) ->
             method i = m).
  { intros m Hin. apply request_handed, handed_inv in Hin.
    now destruct Hin as (fu & b & _ & _ & _ & ->). }
  unfold get, delete, post, put.
  split; [apply Hnone|]. split; [apply Hnone|]. split; apply Hm.
Qed.

(** X13.  When query parameters are configured but the merged mapping is
    empty (as with [params: {}]), a plain-string URL is still given the
    separator, so the transport is handed [url?], whereas a URL object is
    left as it was. *)
Theorem empty_params_leave_separator m url d conf w u i :
  let cfg := givenConfig conf in
  let dfl := defaults w in
  isAbsolute url = false ->
  effBaseUrl cfg dfl = "" ->
  params cfg <> None \/ params dfl <> None ->
  ownProps (params cfg) = [] -> ownProps (params dfl) = [] ->
  In (u, i) (fetchCalls (trace (request m url d conf w))) ->
  u = (url ++ "?")%string
  /\ forall o, appendParams cfg dfl (UrlObj o) = UrlObj o.
Proof.
  intros cfg dfl Habs Hb Hsome Hc Hd Hin.
  assert (Hps : urlParams cfg dfl = []).
  { unfold urlParams. now rewrite !spread_ownProps, Hc, Hd. }
  assert (Happ : forall fu,
             appendParams cfg dfl fu
             = match fu with
               | UrlStr s => UrlStr (s ++ "?")
               | UrlObj o => UrlObj o
               end).
  { intros fu. rewrite appendParams_spec, Hps.
    destruct (params cfg), (params dfl); try (destruct Hsome; congruence);
      destruct fu; reflexivity. }
  split; [|intros o; apply Happ].
  apply request_handed, handed_inv in Hin.
  destruct Hin as (fu & b & Hfu & _ & -> & _).
  change (resolveUrl cfg dfl url = inr fu) in Hfu.
  change (appendParams (givenConfig conf) (defaults w) fu)
    with (appendParams cfg dfl fu).
  unfold resolveUrl in Hfu. rewrite Habs, Hb in Hfu. cbn in Hfu.
  injection Hfu as <-. now rewrite Happ.
Qed.

End Merging.

(* ================================================================== *)
(** ** More concrete runs *)

Module MoreRuns.

Import Example Samples.

(** X1 on a URL that could not be resolved either. *)
Lemma missing_fetch_fails_first_witness :
  fetch bareWorld = None
  /\ request GET "http://" JUndefined None bareWorld
     = mkOutcome (inl fetchMissing) bareWorld [].
Proof.
  assert (H : fetch bareWorld = None) by reflexivity.
  split; [exact H|].
  exact (proj1 (@missing_fetch_fails_first examplePlatform unit GET "http://"
                  JUndefined None bareWorld H)).
Defined.

(** X2 on a URL with a scheme and no host, under defaults with a base
    URL. *)
Lemma absolute_url_ignores_base_witness :
  let w := worldWith apiDefaults (inr ok200) in
  isAbsolute "http://" = true
  /\ URL_new "http://" None = inl invalidUrl
  /\ fetch w <> None
  /\ request GET "http://" JUndefined None w = mkOutcome (inl invalidUrl) w [].
Proof.
  cbv zeta.
  assert (Ha : isAbsolute "http://" = true) by reflexivity.
  assert (He : URL_new "http://" None = inl invalidUrl) by reflexivity.
  assert (Hf : fetch (worldWith apiDefaults (inr ok200)) <> None)
    by discriminate.
  split; [exact Ha|]. split; [exact He|]. split; [exact Hf|].
  exact (proj2 (proj2 (@absolute_url_ignores_base examplePlatform unit GET
                         "http://" JUndefined None
                         (worldWith apiDefaults (inr ok200)) Ha))
           invalidUrl He Hf).
Defined.

(** X3 on an [Accept] header set per call and in the defaults. *)
Lemma header_precedence_witness :
  wf_obj (ownProps (headers (givenConfig (Some acceptConfig))))
  /\ wf_obj (ownProps (headers (defaults acceptWorld)))
  /\ In ("/data", acceptInit)
       (fetchCalls (trace (request GET "/data" JUndefined (Some acceptConfig)
                             acceptWorld)))
  /\ obj_get "Accept" (initHeaders acceptInit) = Some "application/json"
  /\ obj_get "X-App" (initHeaders acceptInit) = Some "1".
Proof.
  assert (Hc : wf_obj (ownProps (headers (givenConfig (Some acceptConfig)))))
    by (repeat constructor; simpl; intuition discriminate).
  assert (Hd : wf_obj (ownProps (headers (defaults acceptWorld))))
    by (repeat constructor; simpl; intuition discriminate).
  assert (Hin : In ("/data", acceptInit)
                  (fetchCalls
                     (trace (request GET "/data" JUndefined
                               (Some acceptConfig) acceptWorld))))
    by (left; reflexivity).
  split; [exact Hc|]. split; [exact Hd|]. split; [exact Hin|].
  destruct (@header_precedence examplePlatform unit GET "/data" JUndefined
              (Some acceptConfig) acceptWorld "/data" acceptInit Hc Hd Hin)
    as (_ & _ & Hget).
  assert (Ha1 : "Accept" <> "Content-Type") by discriminate.
  assert (Ha2 : "Accept" <> "Authorization") by discriminate.
  assert (Hx1 : "X-App" <> "Content-Type") by discriminate.
  assert (Hx2 : "X-App" <> "Authorization") by discriminate.
  split.
  - exact (Hget "Accept" Ha1 (or_introl Ha2)).
  - exact (Hget "X-App" Hx1 (or_introl Hx2)).
Defined.

(** X5 on a transport that rejects every call. *)
Lemma transport_rejection_propagated_witness :
  let w := worldWith emptyConfig (inl failedToFetch) in
  In (EvFetch "/data" (plainInit GET) (inl failedToFetch))
     (trace (request GET "/data" JUndefined None w))
  /\ result (request GET "/data" JUndefined None w) = inl failedToFetch.
Proof.
  cbv zeta.
  assert (Hin : In (EvFetch "/data" (plainInit GET) (inl failedToFetch))
                  (trace (request GET "/data" JUndefined None
                            (worldWith emptyConfig (inl failedToFetch)))))
    by (left; reflexivity).
  split; [exact Hin|].
  exact (proj1 (@transport_rejection_propagated examplePlatform unit GET
                  "/data" JUndefined None
                  (worldWith emptyConfig (inl failedToFetch)) _ _ _ Hin)).
Defined.


(** X7 on a GET that returns. *)
Lemma envelope_reports_response_witness :
  let w := worldWith emptyConfig (inr ok200) in
  result (request GET "/data" JUndefined None w) = inr (okEnvelope emptyConfig)
  /\ status (okEnvelope emptyConfig)
     = resp_status (rawResponse (okEnvelope emptyConfig))
  /\ NoDup (keys (responseHeaders (okEnvelope emptyConfig))).
Proof.
  cbv zeta.
  assert (H : result (request GET "/data" JUndefined None
                        (worldWith emptyConfig (inr ok200)))
              = inr (okEnvelope emptyConfig)) by reflexivity.
  split; [exact H|].
  destruct (@envelope_reports_response examplePlatform unit GET "/data"
              JUndefined None (worldWith emptyConfig (inr ok200))
              (okEnvelope emptyConfig) H) as (_ & Hs & _ & _ & Hnd & _).
  split; [exact Hs | exact Hnd].
Defined.

(** X9 on the default timeout of 5000 ms. *)
Lemma timer_matches_signal_witness :
  let w := worldWith apiDefaults (inr ok200) in
  In ("https://api.example.com/users", timedInit)
     (fetchCalls (trace (request GET "/users" JUndefined None w)))
  /\ filter isTimer (trace (request GET "/users" JUndefined None w))
     = [EvSetTimeout 5000].
Proof.
  cbv zeta.
  assert (Hin : In ("https://api.example.com/users", timedInit)
                  (fetchCalls
                     (trace (request GET "/users" JUndefined None
                               (worldWith apiDefaults (inr ok200))))))
    by (left; reflexivity).
  split; [exact Hin|].
  exact (proj1 (@timer_matches_signal examplePlatform unit GET "/users"
                  JUndefined None (worldWith apiDefaults (inr ok200))
                  _ _ Hin)).
Defined.

(** X10 on an array that is not a list of pairs. *)
Lemma form_failure_stops_before_transport_witness :
  let w := worldWith emptyConfig (inr ok200) in
  let cfg := givenConfig (Some formConfig) in
  let d := JArr [JNum 1] in
  let e := mkError "TypeError" "unsupported form value" in
  fetch w <> None
  /\ resolveUrl cfg (defaults w) "/data" = inr (UrlStr "/data")
  /\ truthy (outgoingPayload cfg (defaults w) d
               (requestHeaders cfg (defaults w))) = true
  /\ effContentType cfg (defaults w) = "application/x-www-form-urlencoded"
  /\ URLSearchParams_toString
       (outgoingPayload cfg (defaults w) d (requestHeaders cfg (defaults w)))
     = inl e
  /\ fetchCalls (trace (request POST "/data" d (Some formConfig) w)) = [].
Proof.
  cbv zeta.
  assert (Hf : fetch (worldWith emptyConfig (inr ok200)) <> None)
    by discriminate.
  split; [exact Hf|]. split; [reflexivity|]. split; [reflexivity|].
  split; [reflexivity|]. split; [reflexivity|].
  exact (proj1 (proj2
           (@form_failure_stops_before_transport examplePlatform unit POST
              "/data" (JArr [JNum 1]) (Some formConfig)
              (worldWith emptyConfig (inr ok200)) (UrlStr "/data")
              (mkError "TypeError" "unsupported form value")
              Hf eq_refl eq_refl eq_refl eq_refl))).
Defined.

(** X12 on a value with a space, [&] and [=]. *)
Lemma query_text_reads_back_witness :
  Forall (fun k => safeKey k = true) (keys sampleParams)
  /\ dropLast (queryString sampleParams) = "q=a%20b%26c%3Dd&page=2"
  /\ readQuery (dropLast (queryString sampleParams)) = sampleParams.
Proof.
  assert (H : Forall (fun k => safeKey k = true) (keys sampleParams))
    by (repeat constructor).
  split; [exact H|]. split; [reflexivity|].
  exact (query_text_reads_back sampleParams H).
Defined.

(** X13 on [params: {}]. *)
Lemma empty_params_leave_separator_witness :
  let w := worldWith emptyConfig (inr ok200) in
  let cfg := givenConfig (Some (paramsConfig [])) in
  isAbsolute "/items" = false
  /\ effBaseUrl cfg (defaults w) = ""
  /\ (params cfg <> None \/ params (defaults w) <> None)
  /\ ownProps (params cfg) = []
  /\ ownProps (params (defaults w)) = []
  /\ In ("/items?", plainInit GET)
       (fetchCalls (trace (request GET "/items" JUndefined
                             (Some (paramsConfig [])) w)))
  /\ "/items?" = ("/items" ++ "?")%string.
Proof.
  cbv zeta.
  assert (Hs : params (givenConfig (Some (paramsConfig []))) <> None
               \/ params (defaults (worldWith emptyConfig (inr ok200)))
                  <> None) by (left; discriminate).
  assert (Hin : In ("/items?", plainInit GET)
                  (fetchCalls
                     (trace (request GET "/items" JUndefined
                               (Some (paramsConfig []))
                               (worldWith emptyConfig (inr ok200))))))
    by (left; reflexivity).
  split; [reflexivity|]. split; [reflexivity|]. split; [exact Hs|].
  split; [reflexivity|]. split; [reflexivity|]. split; [exact Hin|].
  exact (proj1 (@empty_params_leave_separator examplePlatform unit GET
                  "/items" JUndefined (Some (paramsConfig []))
                  (worldWith emptyConfig (inr ok200)) _ _
                  eq_refl eq_refl Hs eq_refl eq_refl Hin)).
Defined.

(** X14 on a POST with a request transform and a token. *)
Lemma request_transform_sees_sent_headers_witness :
  let w := worldWith emptyConfig (inr ok200) in
  let run := request POST "/data" (JStr "a")
               (Some (transformTokenConfig upper)) w in
  In (EvTransformRequest (JStr "a") bearerHeaders) (trace run)
  /\ (forall u i, In (u, i) (fetchCalls (trace run)) ->
                  initHeaders i = bearerHeaders)
  /\ filter isTransformRequest (trace run)
     = [EvTransformRequest (JStr "a") bearerHeaders].
Proof.
  cbv zeta.
  assert (Hin : In (EvTransformRequest (JStr "a") bearerHeaders)
                  (trace (request POST "/data" (JStr "a")
                            (Some (transformTokenConfig upper))
                            (worldWith emptyConfig (inr ok200)))))
    by (left; reflexivity).
  split; [exact Hin|].
  destruct (@request_transform_sees_sent_headers examplePlatform unit POST
              "/data" (JStr "a") (Some (transformTokenConfig upper))
              (worldWith emptyConfig (inr ok200)) _ _ Hin)
    as (_ & _ & _ & _ & _ & Hc & Hf).
  split; [exact Hc | exact Hf].
Defined.


End MoreRuns.
